(** * Replicate provider for the Vercel AI SDK: a shallow embedding

    The development follows [main.ts] of the repository (the provider built
    by [createReplicateProvider]): the model-reference parser
    [parseModelId], the two prompt transformers, the request construction and
    the two network calls of [makeLanguageModelPrediction], the event
    transcoder passed to [TransformStream], and the entry points
    [doGenerate] and [doStream].

    JavaScript strings are embedded as [string]; a character stands for one
    code unit, so the development covers the strings whose code units are
    below 256.  Among those the line terminators of ECMAScript (the
    characters the pattern [.] refuses) are LF and CR. *)

From Stdlib Require Import Ascii String Bool Lia.
From stdpp Require Import gmap strings list.

Set Warnings "-register-all".

(* stdpp blocks the unfolding of string concatenation; the proofs below
   compute with it. *)
#[local] Arguments String.append !_ _ : simpl nomatch.

(** ** Outcomes of fallible code *)

(** What a rejected promise or a [throw] carries.  [Error] is the plain
    [new Error(message)] of the source; [APICallError] is what
    [postJsonToApi] throws with the message computed by the error handler
    it was given; the remaining constructors stand for failures raised
    inside the platform whose message the source does not determine. *)
Inductive Failure : Type :=
  | Error (message : string)
  | APICallError (message : string)
  | InvalidResponse
  | ConnectionFailure
  | StreamFailure.

Inductive Result (A : Type) : Type :=
  | Ok (value : A)
  | Err (failure : Failure).
Arguments Ok {A} value.
Arguments Err {A} failure.

Definition failure_message (f : Failure) : option string :=
  match f with
  | Error m | APICallError m => Some m
  | _ => None
  end.

(** ** Strings *)

Module Str.

Fixpoint all (p : ascii -> bool) (s : string) : bool :=
  match s with
  | EmptyString => true
  | String c s' => p c && all p s'
  end.

Definition is_empty (s : string) : bool :=
  match s with
  | EmptyString => true
  | String _ _ => false
  end.

(** [Array.prototype.join] on an array of strings. *)
Fixpoint join (sep : string) (l : list string) : string :=
  match l with
  | [] => ""
  | [x] => x
  | x :: (_ :: _) as rest => x +:+ sep +:+ join sep rest
  end.

Fixpoint is_prefix (p s : string) : bool :=
  match p, s with
  | EmptyString, _ => true
  | String a p', String b s' => Ascii.eqb a b && is_prefix p' s'
  | String _ _, EmptyString => false
  end.

(** [String.prototype.includes]. *)
Fixpoint includes (s needle : string) : bool :=
  is_prefix needle s ||
  match s with
  | EmptyString => false
  | String _ s' => includes s' needle
  end.

End Str.

(** ** Backtracking matchers for the pattern of [parseModelId]

    The pattern is
    [/^(?<owner>[^/]+)\/(?<name>[^/:]+)(:(?<version>.+))?$/]
    and is run without flags.  Each quantified atom of it is a character
    class, so one combinator is enough: [plus cls s k] tries the class
    [cls] one or more times at the head of [s], longest repetition first
    (the quantifier is greedy), and hands the matched text and the rest of the
    input to the continuation [k]; when the continuation fails it backtracks
    to the next shorter repetition. *)

Module Regex.

Section Plus.
Context {A : Type}.

Fixpoint plus (cls : ascii -> bool) (s : string)
    (k : string -> string -> option A) : option A :=
  match s with
  | EmptyString => None
  | String c s' =>
      if cls c then
        match plus cls s' (fun m rest => k (String c m) rest) with
        | Some r => Some r
        | None => k (String c EmptyString) s'
        end
      else None
  end.

(** A literal character of the pattern. *)
Definition char (c : ascii) (s : string) (k : string -> option A)
    : option A :=
  match s with
  | EmptyString => None
  | String c' s' => if Ascii.eqb c' c then k s' else None
  end.

(** The optional group [( ... )?]: greedy, so the group is tried first
    and skipped only when the match cannot be completed with it. *)
Definition optional (group skip : option A) : option A :=
  match group with
  | Some r => Some r
  | None => skip
  end.

(** [$] without the [m] flag: the end of the input. *)
Definition at_end (s : string) (r : A) : option A :=
  if Str.is_empty s then Some r else None.
End Plus.

(** [[^/]] *)
Definition not_slash (c : ascii) : bool := negb (Ascii.eqb c "/").
(** [[^/:]] *)
Definition not_slash_colon (c : ascii) : bool :=
  negb (Ascii.eqb c "/") && negb (Ascii.eqb c ":").
(** LF and CR, the line terminators among the code units below 256. *)
Definition is_line_terminator (c : ascii) : bool :=
  Ascii.eqb c "010" || Ascii.eqb c "013".
(** [.] without the [s] flag. *)
Definition dot (c : ascii) : bool := negb (is_line_terminator c).

End Regex.

(** ** parseModelId *)

Record ModelRef : Type := {
  owner : string;
  name : string;
  version : option string
}.

Definition invalid_reference_message (ref : string) : string :=
  "Invalid reference to model version: " +:+ ref +:+
  ". Expected format: owner/name or owner/name:version".

(** [ref.match(/^(?<owner>[^/]+)\/(?<name>[^/:]+)(:(?<version>.+))?$/)]:
    [None] for JavaScript's [null], otherwise the named groups. *)
Definition match_model_id (ref : string) : option ModelRef :=
  Regex.plus Regex.not_slash ref (fun owner r1 =>
    Regex.char "/" r1 (fun r2 =>
      Regex.plus Regex.not_slash_colon r2 (fun name r3 =>
        Regex.optional
          (Regex.char ":" r3 (fun r4 =>
             Regex.plus Regex.dot r4 (fun version r5 =>
               Regex.at_end r5
                 {| owner := owner; name := name; version := Some version |})))
          (Regex.at_end r3
             {| owner := owner; name := name; version := None |})))).

Definition parseModelId (ref : string) : Result ModelRef :=
  match match_model_id ref with
  | None => Err (Error (invalid_reference_message ref))
  | Some groups => Ok groups
  end.


(** ** JSON values and the prompt *)

(** The values of [Record<string, unknown>] that a JSON body can carry. *)
Inductive JsonValue : Type :=
  | JNull
  | JBool (b : bool)
  | JNumber (n : Z)
  | JString (s : string)
  | JArray (items : list JsonValue)
  | JObject (fields : list (string * JsonValue)).

Module Json.
(** Property read [obj[key]] on a parsed object. *)
Fixpoint get (key : string) (fields : list (string * JsonValue))
    : option JsonValue :=
  match fields with
  | [] => None
  | (k, v) :: rest => if String.eqb k key then Some v else get key rest
  end.

Definition as_string (j : JsonValue) : option string :=
  match j with
  | JString s => Some s
  | _ => None
  end.

Fixpoint as_strings (l : list JsonValue) : option (list string) :=
  match l with
  | [] => Some []
  | j :: rest =>
      match as_string j, as_strings rest with
      | Some s, Some ss => Some (s :: ss)
      | _, _ => None
      end
  end.
End Json.

(** The content blocks of [LanguageModelV1Message]; [c.type === "text"]
    holds of [TextPart] only. *)
Inductive ContentPart : Type :=
  | TextPart (text : string)
  | ImagePart (image : string)
  | ToolCallPart (toolCallId toolName : string) (args : JsonValue)
  | ToolResultPart (toolCallId toolName : string) (result : JsonValue).

Inductive Message : Type :=
  | System (content : string)
  | User (content : list ContentPart)
  | Assistant (content : list ContentPart)
  | Tool (content : list ContentPart).

Definition LanguageModelV1Prompt : Type := list Message.

Definition is_text (c : ContentPart) : bool :=
  match c with
  | TextPart _ => true
  | _ => false
  end.

(** [c.text]; the property is absent on the other blocks, and [join] prints
    an absent element as the empty string. *)
Definition text_of (c : ContentPart) : string :=
  match c with
  | TextPart t => t
  | _ => ""
  end.

(** [message.content.filter((c) => c.type === "text").map((c) => c.text)] *)
Definition text_blocks (content : list ContentPart) : list string :=
  map text_of (List.filter is_text content).

(** The [for] loop of [transformPrompt].  Each [push] appends ONE element to
    [parts], and that element is itself an array of strings. *)
Fixpoint transformPrompt_loop (prompt : LanguageModelV1Prompt)
    (parts : list (list string)) : list (list string) :=
  match prompt with
  | [] => parts
  | message :: rest =>
      match message with
      | System _ => transformPrompt_loop rest parts
      | User content => transformPrompt_loop rest (parts ++ [text_blocks content])
      | Assistant content =>
          transformPrompt_loop rest (parts ++ [text_blocks content])
      | Tool _ => transformPrompt_loop rest parts
      end
  end.

(** [Array.prototype.toString]: the elements joined with a comma.  [join]
    applies it to every element that is an array. *)
Definition array_toString (a : list string) : string := Str.join "," a.

Definition transformPrompt (prompt : LanguageModelV1Prompt) : string :=
  Str.join "" (map array_toString (transformPrompt_loop prompt [])).

Fixpoint transformSystemPrompt_loop (prompt : LanguageModelV1Prompt)
    (parts : list string) : list string :=
  match prompt with
  | [] => parts
  | System content :: rest => transformSystemPrompt_loop rest (parts ++ [content])
  | _ :: rest => transformSystemPrompt_loop rest parts
  end.

(** [None] is [undefined]. *)
Definition transformSystemPrompt (prompt : LanguageModelV1Prompt)
    : option string :=
  let parts := transformSystemPrompt_loop prompt [] in
  match length parts with
  | O => None
  | S _ => Some (Str.join "" parts)
  end.

(** ** Settings and the request *)

Record ReplicateModelSettings : Type := {
  promptName : option string;
  promptTransformer : option (LanguageModelV1Prompt -> string);
  systemPromptName : option string;
  systemPromptTransformer : option (LanguageModelV1Prompt -> string);
  extraInput : option (gmap string JsonValue)
}.

(** The default [settings = {}] of [createLanguageModel]. *)
Definition no_settings : ReplicateModelSettings :=
  {| promptName := None; promptTransformer := None; systemPromptName := None;
     systemPromptTransformer := None; extraInput := None |}.

(** Truthiness of a [string | undefined]: [undefined] and the empty string
    are the falsy ones. *)
Definition truthy (v : option string) : bool :=
  match v with
  | Some s => negb (Str.is_empty s)
  | None => false
  end.

(** [a ?? b] *)
Definition nullish {A : Type} (a : option A) (b : A) : A :=
  match a with
  | Some x => x
  | None => b
  end.

Module Body.
(** [{ version?, input: {...} }] *)
Record t : Type := {
  version : option string;
  input : gmap string JsonValue
}.
End Body.

(** [const transformer = settings.promptTransformer ?? transformPrompt] *)
Definition transformedPrompt (settings : ReplicateModelSettings)
    (prompt : LanguageModelV1Prompt) : string :=
  let transformer := nullish (promptTransformer settings) transformPrompt in
  transformer prompt.

(** [const systemPromptTransformer =
       settings.promptTransformer ?? transformSystemPrompt] *)
Definition transformedSystemPrompt (settings : ReplicateModelSettings)
    (prompt : LanguageModelV1Prompt) : option string :=
  let systemPromptTransformer :=
    nullish
      (option_map (fun f p => Some (f p)) (promptTransformer settings))
      transformSystemPrompt in
  systemPromptTransformer prompt.

Definition request_path (ref : ModelRef) : string :=
  let path := "/v1/models/" +:+ owner ref +:+ "/" +:+ name ref +:+ "/predictions" in
  if truthy (version ref) then "/v1/predictions" else path.

(** The object literal [body].  Spreads and computed keys are applied left to
    right, a later key replacing an earlier one; spreading [undefined] adds
    nothing. *)
Definition request_body (ref : ModelRef) (settings : ReplicateModelSettings)
    (prompt : LanguageModelV1Prompt) : Body.t :=
  let spread_extra : gmap string JsonValue := nullish (extraInput settings) ∅ in
  let with_prompt :=
    <[nullish (promptName settings) "prompt" :=
        JString (transformedPrompt settings prompt)]> spread_extra in
  let with_system :=
    match transformedSystemPrompt settings prompt with
    | Some sys =>
        if truthy (Some sys)
        then <[nullish (systemPromptName settings) "system_prompt" :=
                 JString sys]> with_prompt
        else with_prompt
    | None => with_prompt
    end in
  {| Body.version := if truthy (version ref) then version ref else None;
     Body.input := with_system |}.

(** ** Streams

    A [ReadableStream] that has run to its end: the chunks it delivered and
    how it ended.  (A stream that never ends is outside this embedding.) *)

Inductive Ending : Type :=
  | Closed
  | Errored.

Record ReadableStream (A : Type) : Type := {
  chunks : list A;
  ending : Ending
}.
Arguments chunks {A} _.
Arguments ending {A} _.

(** [TransformStreamDefaultController]: what has been enqueued on the
    readable side, and whether [terminate] has closed it. *)
Record Controller (B : Type) : Type := {
  queue : list B;
  terminated : bool
}.
Arguments queue {B} _.
Arguments terminated {B} _.

Definition enqueue {B : Type} (chunk : B) (c : Controller B) : Controller B :=
  {| queue := queue c ++ [chunk]; terminated := terminated c |}.

Definition terminate {B : Type} (c : Controller B) : Controller B :=
  {| queue := queue c; terminated := true |}.

(** [readable.pipeThrough(new TransformStream({ transform }))]: [transform]
    is called on every chunk in arrival order; once the controller is
    terminated the readable side is closed and the writable side takes no
    further chunk; otherwise the readable side ends the way the source ends. *)
Fixpoint pump {A B : Type} (transform : A -> Controller B -> Controller B)
    (input : list A) (source_ending : Ending) (c : Controller B)
    : ReadableStream B :=
  match input with
  | [] => {| chunks := queue c; ending := source_ending |}
  | chunk :: rest =>
      let c' := transform chunk c in
      if terminated c'
      then {| chunks := queue c'; ending := Closed |}
      else pump transform rest source_ending c'
  end.

Definition pipeThrough {A B : Type} (source : ReadableStream A)
    (transform : A -> Controller B -> Controller B) : ReadableStream B :=
  pump transform (chunks source) (ending source)
    {| queue := []; terminated := false |}.

(** [ParsedEvent] of eventsource-parser; the [event] field is optional. *)
Record ParsedEvent : Type := {
  event : option string;
  data : string
}.

Inductive FinishReason : Type :=
  | stop
  | length_reason
  | content_filter
  | tool_calls
  | error_reason
  | other.

Record Usage : Type := {
  promptTokens : N;
  completionTokens : N
}.

(** [LanguageModelV1StreamPart], a union tagged by [type]. *)
Inductive LanguageModelV1StreamPart : Type :=
  | text_delta (textDelta : string)
  | tool_call (toolCallId toolName args : string)
  | tool_call_delta (toolCallId toolName argsTextDelta : string)
  | finish (finishReason : FinishReason) (usage : Usage)
  | error_part (error : JsonValue).

Definition event_is (ev : ParsedEvent) (expected : string) : bool :=
  match event ev with
  | Some e => String.eqb e expected
  | None => false
  end.

(** The [transform] callback given to [TransformStream]. *)
Definition transform (ev : ParsedEvent)
    (controller : Controller LanguageModelV1StreamPart)
    : Controller LanguageModelV1StreamPart :=
  if event_is ev "done" then
    terminate
      (enqueue
         (finish stop {| promptTokens := 0; completionTokens := 0 |})
         controller)
  else if event_is ev "output" then
    enqueue (text_delta (data ev)) controller
  else controller.

(** ** The network and the effects of a call

    The upstream is a pair of oracles answering the two requests.  The body of
    the stream response is taken after [TextDecoderStream] and
    [EventSourceParserStream], as the stream of parsed events the transcoder
    reads. *)

Record HttpResponse : Type := {
  status : nat;
  statusText : string;
  (** the body, when it parses as JSON *)
  json : option JsonValue
}.

(** [response.ok]: the status is in the range 200-299. *)
Definition ok (response : HttpResponse) : bool :=
  (200 <=? status response) && (status response <? 300).

Inductive Request : Type :=
  | POST (url authorization : string) (body : Body.t)
  | GET (url accept : string).

Record Upstream : Type := {
  (** [None]: the request cannot be delivered. *)
  answer_post : string -> string -> Body.t -> option HttpResponse;
  (** [None]: [fetch] rejects; [Some None]: a response without a body. *)
  answer_get : string -> option (option (ReadableStream ParsedEvent))
}.

(** A computation that issues requests (recorded in order) and may throw. *)
Definition IO (A : Type) : Type := list Request -> Result A * list Request.

Definition ret {A : Type} (a : A) : IO A := fun log => (Ok a, log).

Definition throw {A : Type} (f : Failure) : IO A := fun log => (Err f, log).

Definition bind {A B : Type} (m : IO A) (k : A -> IO B) : IO B :=
  fun log =>
    match m log with
    | (Ok a, log') => k a log'
    | (Err f, log') => (Err f, log')
    end.

#[global] Instance IO_ret : MRet IO := @ret.
#[global] Instance IO_bind : MBind IO := fun A B k m => bind m k.

Definition send (r : Request) : IO unit := fun log => (Ok tt, log ++ [r]).

Definition lift {A : Type} (r : Result A) : IO A := fun log => (r, log).

Definition run {A : Type} (m : IO A) : Result A * list Request := m [].

(** *** The helpers of [@ai-sdk/provider-utils], as the source relies on them *)

(** [createJsonResponseHandler(schema)]: the body parsed and validated. *)
Definition createJsonResponseHandler {A : Type} (schema : JsonValue -> option A)
    (response : HttpResponse) : Result A :=
  match json response with
  | Some j =>
      match schema j with
      | Some v => Ok v
      | None => Err InvalidResponse
      end
  | None => Err InvalidResponse
  end.

(** [createJsonErrorResponseHandler({ errorSchema, errorToMessage })]: the
    error to throw; the status text stands in when the body does not
    validate. *)
Definition createJsonErrorResponseHandler {A : Type}
    (errorSchema : JsonValue -> option A) (errorToMessage : A -> string)
    (response : HttpResponse) : Failure :=
  match json response with
  | Some j =>
      match errorSchema j with
      | Some e => APICallError (errorToMessage e)
      | None => APICallError (statusText response)
      end
  | None => APICallError (statusText response)
  end.

(** [postJsonToApi]: one POST; a response that is not [ok] goes to the failed
    handler, whose error is thrown. *)
Definition postJsonToApi {A : Type} (upstream : Upstream)
    (url authorization : string) (body : Body.t)
    (successfulResponseHandler : HttpResponse -> Result A)
    (failedResponseHandler : HttpResponse -> Failure) : IO A :=
  send (POST url authorization body);;
  match answer_post upstream url authorization body with
  | None => throw ConnectionFailure
  | Some response =>
      if ok response
      then lift (successfulResponseHandler response)
      else throw (failedResponseHandler response)
  end.

(** [fetch(url, { headers: { Accept } })]; the result is [response.body]. *)
Definition fetch (upstream : Upstream) (url accept : string)
    : IO (option (ReadableStream ParsedEvent)) :=
  send (GET url accept);;
  match answer_get upstream url with
  | None => throw ConnectionFailure
  | Some response_body => ret response_body
  end.

(** *** The schemas *)

Record Prediction : Type := {
  output : option (list string);
  urls_stream : string
}.

Record ErrorBody : Type := {
  detail : string
}.

Module schema.
(** [z.object({ output: z.nullable(z.array(z.string())),
                urls: z.object({ stream: z.string() }) })] *)
Definition prediction (j : JsonValue) : option Prediction :=
  match j with
  | JObject fields =>
      match Json.get "output" fields, Json.get "urls" fields with
      | Some out, Some (JObject urls) =>
          match Json.get "stream" urls with
          | Some (JString stream) =>
              match out with
              | JNull => Some {| output := None; urls_stream := stream |}
              | JArray items =>
                  match Json.as_strings items with
                  | Some l => Some {| output := Some l; urls_stream := stream |}
                  | None => None
                  end
              | _ => None
              end
          | _ => None
          end
      | _, _ => None
      end
  | _ => None
  end.

(** [z.object({ detail: z.string() })] *)
Definition error (j : JsonValue) : option ErrorBody :=
  match j with
  | JObject fields =>
      match Json.get "detail" fields with
      | Some (JString d) => Some {| detail := d |}
      | _ => None
      end
  | _ => None
  end.
End schema.

(** ** makeLanguageModelPrediction *)

Definition makeLanguageModelPrediction (upstream : Upstream)
    (modelId apiKey : string) (prompt : LanguageModelV1Prompt)
    (settings : ReplicateModelSettings)
    : IO (ReadableStream LanguageModelV1StreamPart) :=
  ref ← lift (parseModelId modelId);
  let path := request_path ref in
  let body := request_body ref settings prompt in
  prediction ←
    postJsonToApi upstream
      ("https://api.replicate.com" +:+ path)
      ("Bearer " +:+ apiKey)
      body
      (createJsonResponseHandler schema.prediction)
      (createJsonErrorResponseHandler schema.error detail);
  response_body ← fetch upstream (urls_stream prediction) "text/event-stream";
  match response_body with
  | None => throw (Error "Missing response body")
  | Some events => mret (pipeThrough events transform)
  end.

(** ** The entry points *)

Record GenerateResult : Type := {
  text : string;
  generate_finishReason : FinishReason;
  generate_usage : Usage;
  generate_rawPrompt : LanguageModelV1Prompt;
  generate_rawSettings : ReplicateModelSettings
}.

Record StreamResult : Type := {
  stream : ReadableStream LanguageModelV1StreamPart;
  stream_rawPrompt : LanguageModelV1Prompt;
  stream_rawSettings : ReplicateModelSettings
}.

(** [for await (const part of stream) { ... }] of [doGenerate]: a text delta
    is pushed and the loop continues, any other part breaks out of it; the
    loop ends normally when the stream closes and throws when it errors. *)
Fixpoint for_await (parts : list LanguageModelV1StreamPart)
    (stream_ending : Ending) (output : list string) : Result (list string) :=
  match parts with
  | [] =>
      match stream_ending with
      | Closed => Ok output
      | Errored => Err StreamFailure
      end
  | part :: rest =>
      match part with
      | text_delta textDelta => for_await rest stream_ending (output ++ [textDelta])
      | _ => Ok output
      end
  end.

Definition doGenerate (upstream : Upstream) (apiKey modelId : string)
    (settings : ReplicateModelSettings) (prompt : LanguageModelV1Prompt)
    : IO GenerateResult :=
  stream ← makeLanguageModelPrediction upstream modelId apiKey prompt settings;
  output ← lift (for_await (chunks stream) (ending stream) []);
  mret {| text := Str.join "" output;
          generate_finishReason := stop;
          generate_usage := {| promptTokens := 0; completionTokens := 0 |};
          generate_rawPrompt := prompt;
          generate_rawSettings := settings |}.

Definition doStream (upstream : Upstream) (apiKey modelId : string)
    (settings : ReplicateModelSettings) (prompt : LanguageModelV1Prompt)
    : IO StreamResult :=
  stream ← makeLanguageModelPrediction upstream modelId apiKey prompt settings;
  mret {| stream := stream;
          stream_rawPrompt := prompt;
          stream_rawSettings := settings |}.

(** A run of an entry point fails when its promise rejects. *)
Definition rejects {A : Type} (outcome : Result A * list Request) : bool :=
  match outcome with
  | (Err _, _) => true
  | (Ok _, _) => false
  end.

(** ** Reference statements

    Definitions that restate, in the words of the specification, what the
    code above is compared with. *)

(** The pattern of [parseModelId] read as a grammar: a non-empty owner
    without [/], a [/], a non-empty name without [/] and [:], and then either
    nothing or a [:] followed by a non-empty version without line
    terminator. *)
Definition reference_grammar (ref : string) (r : ModelRef) : Prop :=
  owner r <> "" /\ Str.all Regex.not_slash (owner r) = true /\
  name r <> "" /\ Str.all Regex.not_slash_colon (name r) = true /\
  match version r with
  | None => ref = owner r +:+ "/" +:+ name r
  | Some v =>
      v <> "" /\ Str.all Regex.dot v = true /\
      ref = owner r +:+ "/" +:+ name r +:+ ":" +:+ v
  end.

(** The grammar in the words of the specification: [owner/name] or
    [owner/name:version], owner and name non-empty and without [/], the
    version being everything after the first [:] that follows the owner (so
    the name has no [:]); nothing is asked of the characters of the version. *)
Definition spec_reference_grammar (ref : string) (r : ModelRef) : Prop :=
  owner r <> "" /\ Str.all Regex.not_slash (owner r) = true /\
  name r <> "" /\ Str.all Regex.not_slash_colon (name r) = true /\
  match version r with
  | None => ref = owner r +:+ "/" +:+ name r
  | Some v => v <> "" /\ ref = owner r +:+ "/" +:+ name r +:+ ":" +:+ v
  end.

(** A version of two lines, [c] and [d], separated by a line feed. *)
Definition two_lines : string := String "c" (String "010" (String "d" "")).

(** The request that starts the prediction. *)
Definition initiation_request (apiKey : string) (ref : ModelRef)
    (settings : ReplicateModelSettings) (prompt : LanguageModelV1Prompt)
    : Request :=
  POST ("https://api.replicate.com" +:+ request_path ref)
       ("Bearer " +:+ apiKey)
       (request_body ref settings prompt).

(** An upstream that answers every initiation with status 429 and the body
    [{"detail":"rate limited"}]. *)
Definition rate_limited : Upstream :=
  {| answer_post := fun _ _ _ =>
       Some {| status := 429; statusText := "Too Many Requests";
               json := Some (JObject [("detail", JString "rate limited")]) |};
     answer_get := fun _ => None |}.

(** An upstream that accepts every initiation and serves the given events on
    the stream it announces. *)
Definition serving (events : ReadableStream ParsedEvent) : Upstream :=
  {| answer_post := fun _ _ _ =>
       Some {| status := 201; statusText := "Created";
               json := Some (JObject
                 [("output", JNull);
                  ("urls", JObject [("stream", JString "https://stream.example/p1")])]) |};
     answer_get := fun _ => Some (Some events) |}.

(** The part enqueued on [done]. *)
Definition finish_part : LanguageModelV1StreamPart :=
  finish stop {| promptTokens := 0; completionTokens := 0 |}.

(** The events that arrive before the first event named [done]. *)
Fixpoint before_done (events : list ParsedEvent) : list ParsedEvent :=
  match events with
  | [] => []
  | ev :: rest => if event_is ev "done" then [] else ev :: before_done rest
  end.

Definition has_done (events : list ParsedEvent) : bool :=
  existsb (fun ev => event_is ev "done") events.

(** The raw data of the events named [output], in arrival order. *)
Definition output_data (events : list ParsedEvent) : list string :=
  map data (List.filter (fun ev => event_is ev "output") events).

(** What the specification asks of the transcoder: a text delta for each
    [output] event that precedes the first [done], in arrival order, then one
    finish part if a [done] arrived at all. *)
Definition spec_parts (events : list ParsedEvent)
    : list LanguageModelV1StreamPart :=
  map text_delta (output_data (before_done events)) ++
  (if has_done events then [finish_part] else []).

(** The text of the parts that precede the first part that is not a text
    delta. *)
Fixpoint leading_text_deltas (parts : list LanguageModelV1StreamPart)
    : list string :=
  match parts with
  | text_delta t :: rest => t :: leading_text_deltas rest
  | _ => []
  end.

Definition is_finish (part : LanguageModelV1StreamPart) : bool :=
  match part with
  | finish _ _ => true
  | _ => false
  end.

(** A call of [doStream] fails for its consumer when the promise rejects or
    when the stream it resolved to ends in error. *)
Definition stream_fails (outcome : Result StreamResult * list Request) : bool :=
  match outcome with
  | (Err _, _) => true
  | (Ok r, _) =>
      match ending (stream r) with
      | Errored => true
      | Closed => false
      end
  end.

(** The upstream accepts the initiation of this call and serves [source] on
    the stream it announces. *)
Definition delivers (upstream : Upstream) (apiKey modelId : string)
    (settings : ReplicateModelSettings) (prompt : LanguageModelV1Prompt)
    (source : ReadableStream ParsedEvent) : Prop :=
  exists ref response prediction,
    parseModelId modelId = Ok ref /\
    answer_post upstream ("https://api.replicate.com" +:+ request_path ref)
      ("Bearer " +:+ apiKey) (request_body ref settings prompt) = Some response /\
    ok response = true /\
    createJsonResponseHandler schema.prediction response = Ok prediction /\
    answer_get upstream (urls_stream prediction) = Some (Some source).

(** The events of the example of the specification, and a stream cut short
    before any [done]. *)
Definition hello_world_events : list ParsedEvent :=
  [ {| event := Some "output"; data := "Hello" |};
    {| event := Some "output"; data := " world" |};
    {| event := Some "done"; data := "{}" |} ].

Definition cut_short : ReadableStream ParsedEvent :=
  {| chunks := [ {| event := Some "output"; data := "Hello" |};
                 {| event := Some "ping"; data := "" |};
                 {| event := Some "output"; data := " wor" |} ];
     ending := Closed |}.

Definition is_text_delta (part : LanguageModelV1StreamPart) : bool :=
  match part with
  | text_delta _ => true
  | _ => false
  end.

(** The text blocks of the user and assistant messages, message by message. *)
Fixpoint message_blocks (prompt : LanguageModelV1Prompt) : list (list string) :=
  match prompt with
  | [] => []
  | User content :: rest => text_blocks content :: message_blocks rest
  | Assistant content :: rest => text_blocks content :: message_blocks rest
  | _ :: rest => message_blocks rest
  end.

(** The default prompt transformer in the words of the specification: the
    text of the text blocks of the user and assistant messages, in message
    order, with nothing between the pieces. *)
Definition spec_transformPrompt (prompt : LanguageModelV1Prompt) : string :=
  foldr String.append "" (concat (message_blocks prompt)).

(** The content of the system messages, in message order. *)
Fixpoint system_contents (prompt : LanguageModelV1Prompt) : list string :=
  match prompt with
  | [] => []
  | System content :: rest => content :: system_contents rest
  | _ :: rest => system_contents rest
  end.

(** The same settings with another [systemPromptTransformer]. *)
Definition with_systemPromptTransformer
    (g : option (LanguageModelV1Prompt -> string))
    (settings : ReplicateModelSettings) : ReplicateModelSettings :=
  {| promptName := promptName settings;
     promptTransformer := promptTransformer settings;
     systemPromptName := systemPromptName settings;
     systemPromptTransformer := g;
     extraInput := extraInput settings |}.

(** A user message of two text blocks, and a reference without version. *)
Definition two_blocks : LanguageModelV1Prompt :=
  [User [TextPart "a"; TextPart "b"]].

Definition llama : ModelRef :=
  {| owner := "meta"; name := "llama"; version := None |}.

(** A custom transformer in the manner of the README. *)
Definition inst_transformer (prompt : LanguageModelV1Prompt) : string :=
  "[INST]" +:+ spec_transformPrompt prompt +:+ "[/INST]".

(** The keys under which the prompt and the system prompt are stored. *)
Definition prompt_key (settings : ReplicateModelSettings) : string :=
  nullish (promptName settings) "prompt".

Definition system_prompt_key (settings : ReplicateModelSettings) : string :=
  nullish (systemPromptName settings) "system_prompt".

(** Settings that supply both transformers. *)
Definition both_transformers : ReplicateModelSettings :=
  {| promptName := None;
     promptTransformer := Some inst_transformer;
     systemPromptName := None;
     systemPromptTransformer := Some (fun _ => "You are terse.");
     extraInput := None |}.

Definition brief_prompt : LanguageModelV1Prompt :=
  [System "Be brief."; User [TextPart "hi"]].

(** Extra input that names the prompt key itself. *)
Definition clashing_extra : ReplicateModelSettings :=
  {| promptName := None;
     promptTransformer := None;
     systemPromptName := None;
     systemPromptTransformer := None;
     extraInput := Some (<["prompt" := JString "ignored"]>
                           (<["top_p" := JNumber 1]> ∅)) |}.

(** ** The provider

    [createReplicateProvider] closes over the key and returns [llm], which
    builds the [LanguageModelV1] object of a model.  The entry points of that
    object take the call options, of which they read [prompt] only
    ([inputFormat] and [mode] are bound to [_] and [__]). *)

Inductive InputFormat : Type :=
  | messages_format
  | prompt_format.

(** [mode] of [LanguageModelV1CallOptions]; the tools are kept by name. *)
Inductive Mode : Type :=
  | regular (tools : list string)
  | object_json
  | object_tool (tool : string).

Record CallOptions : Type := {
  inputFormat : InputFormat;
  mode : Mode;
  prompt : LanguageModelV1Prompt
}.

Module Model.
Record t : Type := {
  specificationVersion : string;
  provider : string;
  modelId : string;
  (** always [undefined] *)
  defaultObjectGenerationMode : option string;
  doGenerate : CallOptions -> IO GenerateResult;
  doStream : CallOptions -> IO StreamResult
}.
End Model.

(** [createLanguageModel(modelId, settings = {})] inside the provider made
    for [apiKey]; [None] is an omitted [settings]. *)
Definition createLanguageModel (upstream : Upstream) (apiKey : string)
    (modelId : string) (settings : option ReplicateModelSettings) : Model.t :=
  let settings := nullish settings no_settings in
  {| Model.specificationVersion := "v1";
     Model.provider := "replicate";
     Model.modelId := modelId;
     Model.defaultObjectGenerationMode := None;
     Model.doGenerate := fun options =>
       doGenerate upstream apiKey modelId settings (prompt options);
     Model.doStream := fun options =>
       doStream upstream apiKey modelId settings (prompt options) |}.

Record Provider : Type := {
  llm : string -> option ReplicateModelSettings -> Model.t
}.

Definition createReplicateProvider (upstream : Upstream) (apiKey : string)
    : Provider :=
  {| llm := createLanguageModel upstream apiKey |}.

(** ** Further reference statements *)

(** The parts of a reference put back together. *)
Definition reassemble (r : ModelRef) : string :=
  owner r +:+ "/" +:+ name r +:+
  match version r with
  | Some v => ":" +:+ v
  | None => ""
  end.


Definition is_system (m : Message) : bool :=
  match m with
  | System _ => true
  | _ => false
  end.

(** A prompt with every kind of message and block, one text block at most in
    each message. *)
Definition mixed_prompt : LanguageModelV1Prompt :=
  [System "Be brief.";
   User [TextPart "a"; ImagePart "data:image/png;base64,AAAA"];
   Assistant [ToolCallPart "c1" "lookup" JNull; TextPart "b"];
   Tool [ToolResultPart "c1" "lookup" (JString "r")];
   User []].

Definition is_user_or_assistant (m : Message) : bool :=
  match m with
  | User _ | Assistant _ => true
  | _ => false
  end.

(** [l1] is an initial segment of [l2]. *)
Definition initial_segment {A : Type} (l1 l2 : list A) : Prop :=
  exists rest, l2 = l1 ++ rest.

(** An upstream that accepts the initiation and answers the stream request
    with a response that has no body. *)
Definition bodyless : Upstream :=
  {| answer_post := fun _ _ _ =>
       Some {| status := 201; statusText := "Created";
               json := Some (JObject
                 [("output", JNull);
                  ("urls", JObject [("stream", JString "https://stream.example/p1")])]) |};
     answer_get := fun _ => Some None |}.

(** An upstream whose prediction carries its output as one string. *)
Definition string_output : Upstream :=
  {| answer_post := fun _ _ _ =>
       Some {| status := 201; statusText := "Created";
               json := Some (JObject
                 [("output", JString "Hello");
                  ("urls", JObject [("stream", JString "https://stream.example/p1")])]) |};
     answer_get := fun _ => None |}.

(** An upstream whose prediction already lists output, serving [events]. *)
Definition with_output (events : ReadableStream ParsedEvent) : Upstream :=
  {| answer_post := fun _ _ _ =>
       Some {| status := 200; statusText := "OK";
               json := Some (JObject
                 [("output", JArray [JString "early"]);
                  ("urls", JObject [("stream", JString "https://stream.example/p1")])]) |};
     answer_get := fun _ => Some (Some events) |}.

(** A stream that breaks after its [done]. *)
Definition broken_after_done : ReadableStream ParsedEvent :=
  {| chunks := hello_world_events; ending := Errored |}.

(** ** parseModelId over UTF-16 code units

    A JavaScript string is a sequence of 16-bit code units, and the pattern,
    run without the [u] flag, reads it one code unit at a time.  This module
    runs the same pattern on lists of code units, so that the two line
    terminators above 255, U+2028 and U+2029, are covered too.  A code unit
    is a number; [of_string] reads a string of the development above as the
    list of its code units. *)

Module Utf16.

Definition of_string (s : string) : list N :=
  map N_of_ascii (list_ascii_of_string s).

Section Matchers.
Context {A : Type}.

(** A character class repeated one or more times, longest repetition first,
    backtracking to the shorter ones. *)
Fixpoint plus (cls : N -> bool) (s : list N)
    (k : list N -> list N -> option A) : option A :=
  match s with
  | [] => None
  | c :: s' =>
      if cls c then
        match plus cls s' (fun m rest => k (c :: m) rest) with
        | Some r => Some r
        | None => k [c] s'
        end
      else None
  end.

(** A literal character of the pattern. *)
Definition char (c : N) (s : list N) (k : list N -> option A) : option A :=
  match s with
  | [] => None
  | c' :: s' => if N.eqb c' c then k s' else None
  end.

(** [$] without the [m] flag. *)
Definition at_end (s : list N) (r : A) : option A :=
  match s with
  | [] => Some r
  | _ :: _ => None
  end.
End Matchers.

(** The code units of [/] and [:]. *)
Definition slash : N := 47.
Definition colon : N := 58.

(** [[^/]] *)
Definition not_slash (c : N) : bool := negb (N.eqb c slash).
(** [[^/:]] *)
Definition not_slash_colon (c : N) : bool :=
  negb (N.eqb c slash) && negb (N.eqb c colon).
(** The line terminators of ECMAScript: LF (U+000A), CR (U+000D), LINE
    SEPARATOR (U+2028) and PARAGRAPH SEPARATOR (U+2029). *)
Definition is_line_terminator (c : N) : bool :=
  N.eqb c 10 || N.eqb c 13 || N.eqb c 8232 || N.eqb c 8233.
(** [.] without the [s] flag. *)
Definition dot (c : N) : bool := negb (is_line_terminator c).

Record ModelRef : Type := {
  owner : list N;
  name : list N;
  version : option (list N)
}.

(** What a call of the parser does: it returns the groups, or throws an
    [Error] with a message. *)
Inductive Outcome : Type :=
  | Returns (groups : ModelRef)
  | Throws (message : list N).

Definition invalid_reference_message (ref : list N) : list N :=
  of_string "Invalid reference to model version: " ++ ref ++
  of_string ". Expected format: owner/name or owner/name:version".

(** [ref.match(/^(?<owner>[^/]+)\/(?<name>[^/:]+)(:(?<version>.+))?$/)] *)
Definition match_model_id (ref : list N) : option ModelRef :=
  plus not_slash ref (fun owner r1 =>
    char slash r1 (fun r2 =>
      plus not_slash_colon r2 (fun name r3 =>
        Regex.optional
          (char colon r3 (fun r4 =>
             plus dot r4 (fun version r5 =>
               at_end r5
                 {| owner := owner; name := name; version := Some version |})))
          (at_end r3
             {| owner := owner; name := name; version := None |})))).

Definition parseModelId (ref : list N) : Outcome :=
  match match_model_id ref with
  | None => Throws (invalid_reference_message ref)
  | Some groups => Returns groups
  end.

(** The strings of the form [owner/name] or [owner/name:version]: a
    non-empty owner without [/], a non-empty name without [/] and [:], and a
    version, when there is one, that is non-empty and holds no line
    terminator. *)
Definition reference_grammar (ref : list N) (r : ModelRef) : Prop :=
  owner r <> [] /\ forallb not_slash (owner r) = true /\
  name r <> [] /\ forallb not_slash_colon (name r) = true /\
  match version r with
  | None => ref = owner r ++ slash :: name r
  | Some v =>
      v <> [] /\ forallb dot v = true /\
      ref = owner r ++ slash :: name r ++ colon :: v
  end.

End Utf16.

(** The groups of the parser above, read as lists of code units. *)
Definition utf16_ref (r : ModelRef) : Utf16.ModelRef :=
  {| Utf16.owner := Utf16.of_string (owner r);
     Utf16.name := Utf16.of_string (name r);
     Utf16.version := option_map Utf16.of_string (version r) |}.

(** [a/b:c<U+2028>d], code unit by code unit. *)
Definition line_separator_in_version : list N :=
  [97; 47; 98; 58; 99; 8232; 100]%N.

(** * Properties *)

(** ** Facts about strings *)

Lemma str_app_nil_r (s : string) : s +:+ "" = s.
Proof. induction s as [|c s IH]; cbn; [reflexivity | by rewrite IH]. Qed.

Lemma str_app_assoc (a b c : string) : (a +:+ b) +:+ c = a +:+ b +:+ c.
Proof. induction a as [|x a IH]; cbn; [reflexivity | by rewrite IH]. Qed.

Lemma str_all_app p (a b : string) :
  Str.all p (a +:+ b) = Str.all p a && Str.all p b.
Proof.
  induction a as [|x a IH]; cbn; [reflexivity |].
  by rewrite IH, andb_assoc.
Qed.

Lemma str_is_prefix_app (s t : string) : Str.is_prefix s (s +:+ t) = true.
Proof.
  induction s as [|c s IH]; cbn; [reflexivity |].
  by rewrite Ascii.eqb_refl, IH.
Qed.

Lemma str_includes_prefix (s needle : string) :
  Str.is_prefix needle s = true -> Str.includes s needle = true.
Proof. intros H. destruct s; cbn in *; by rewrite H. Qed.

Lemma str_includes_app (a s b : string) : Str.includes (a +:+ s +:+ b) s = true.
Proof.
  induction a as [|c a IH].
  - simpl. apply str_includes_prefix, str_is_prefix_app.
  - cbn. rewrite IH. apply orb_true_r.
Qed.

Lemma str_includes_refl (s : string) : Str.includes s s = true.
Proof.
  pose proof (str_includes_app "" s "") as H. cbn in H.
  by rewrite str_app_nil_r in H.
Qed.

Lemma str_join_empty_sep (l : list string) :
  Str.join "" l = foldr String.append "" l.
Proof.
  induction l as [|x [|y l] IH]; cbn in *.
  - reflexivity.
  - by rewrite str_app_nil_r.
  - by rewrite IH.
Qed.

(** Two ways of cutting one string at a character outside the class [p],
    the part before the cut lying inside [p], cut at the same place. *)
Lemma str_cut_unique p (a a' : string) c c' (x x' : string) :
  Str.all p a = true -> Str.all p a' = true -> p c = false -> p c' = false ->
  a +:+ String c x = a' +:+ String c' x' ->
  a = a' /\ c = c' /\ x = x'.
Proof.
  revert a'. induction a as [|h a IH]; intros [|h' a'] Ha Ha' Hc Hc' E;
    cbn in *.
  - by injection E as -> ->.
  - injection E as -> _. apply andb_true_iff in Ha' as [Hh _]. congruence.
  - injection E as -> _. apply andb_true_iff in Ha as [Hh _]. congruence.
  - injection E as -> E.
    apply andb_true_iff in Ha as [_ Ha]. apply andb_true_iff in Ha' as [_ Ha'].
    by destruct (IH a' Ha Ha' Hc Hc' E) as (-> & -> & ->).
Qed.

(** A string lying inside [p] is nowhere cut by a character outside it. *)
Lemma str_cut_none p (a a' : string) c (x : string) :
  Str.all p a = true -> p c = false -> a = a' +:+ String c x -> False.
Proof.
  intros Ha Hc ->. rewrite str_all_app in Ha. cbn in Ha.
  rewrite Hc in Ha. cbn in Ha. by rewrite andb_false_r in Ha.
Qed.

(** ** The combinator [plus] against the decompositions of the input *)

Lemma plus_sound {A} cls (s : string) (k : string -> string -> option A) r :
  Regex.plus cls s k = Some r ->
  exists m rest, s = m +:+ rest /\ m <> "" /\ Str.all cls m = true /\
                 k m rest = Some r.
Proof.
  revert k. induction s as [|c s IH]; intros k H; cbn in H; [discriminate |].
  destruct (cls c) eqn:Hc; [| discriminate].
  destruct (Regex.plus cls s _) as [r'|] eqn:E.
  - injection H as ->. apply IH in E as (m & rest & -> & _ & Hm & Hk).
    exists (String c m), rest. cbn. by rewrite Hc, Hm.
  - exists (String c ""), s. cbn. by rewrite Hc.
Qed.

Lemma plus_complete {A} cls (m rest : string)
    (k : string -> string -> option A) :
  m <> "" -> Str.all cls m = true -> is_Some (k m rest) ->
  is_Some (Regex.plus cls (m +:+ rest) k).
Proof.
  revert k. induction m as [|c m IH]; intros k Hne Hall Hk; [done |].
  cbn in Hall. apply andb_true_iff in Hall as [Hc Hall]. cbn. rewrite Hc.
  destruct m as [|c' m].
  - cbn. destruct (Regex.plus cls rest _); eauto.
  - specialize (IH (fun m0 rest0 => k (String c m0) rest0)).
    destruct IH as [r Hr]; [done | done | done |].
    rewrite Hr. eauto.
Qed.

Lemma char_sound {A} c (s : string) (k : string -> option A) r :
  Regex.char c s k = Some r -> exists s', s = String c s' /\ k s' = Some r.
Proof.
  destruct s as [|c' s']; cbn; [discriminate |].
  destruct (Ascii.eqb_spec c' c) as [-> |]; [eauto | discriminate].
Qed.

Lemma char_cons {A} c (s : string) (k : string -> option A) :
  Regex.char c (String c s) k = k s.
Proof. cbn. by rewrite Ascii.eqb_refl. Qed.

Lemma at_end_sound {A} (s : string) (r r' : A) :
  Regex.at_end s r = Some r' -> s = "" /\ r' = r.
Proof. destruct s; cbn; [| discriminate]. by injection 1 as ->. Qed.

(** ** parseModelId against the grammar of its pattern *)

Lemma match_model_id_sound ref r :
  match_model_id ref = Some r -> reference_grammar ref r.
Proof.
  unfold match_model_id. intros H.
  apply plus_sound in H as (o & r1 & -> & Ho & Hao & H).
  apply char_sound in H as (r2 & -> & H).
  apply plus_sound in H as (n & r3 & -> & Hn & Han & H).
  unfold Regex.optional in H.
  destruct (Regex.char ":" r3 _) as [g|] eqn:G.
  - injection H as ->.
    apply char_sound in G as (r4 & -> & G).
    apply plus_sound in G as (v & r5 & -> & Hv & Hav & G).
    apply at_end_sound in G as [-> ->].
    unfold reference_grammar; cbn. by rewrite str_app_nil_r.
  - apply at_end_sound in H as [-> ->].
    unfold reference_grammar; cbn. by rewrite str_app_nil_r.
Qed.

Lemma reference_grammar_unique ref r r' :
  reference_grammar ref r -> reference_grammar ref r' -> r = r'.
Proof.
  destruct r as [o n v], r' as [o' n' v'].
  unfold reference_grammar; cbn.
  intros (_ & Ho & _ & Hn & Hv) (_ & Ho' & _ & Hn' & Hv').
  assert (Hcut : o = o' /\
                 n +:+ match v with Some x => String ":" x | None => "" end =
                 n' +:+ match v' with Some x => String ":" x | None => "" end).
  { assert (E : o +:+ String "/" (n +:+ match v with
                                        | Some x => String ":" x | None => "" end)
              = o' +:+ String "/" (n' +:+ match v' with
                                          | Some x => String ":" x | None => "" end)).
    { destruct v, v'; rewrite ?str_app_nil_r;
        repeat match goal with H : _ /\ _ |- _ => destruct H end;
        cbn in *; congruence. }
    by apply (str_cut_unique Regex.not_slash) in E as (-> & _ & ->). }
  destruct Hcut as [-> E]. clear Hv Hv' Ho Ho'.
  destruct v as [x|], v' as [x'|].
  - by apply (str_cut_unique Regex.not_slash_colon) in E as (-> & _ & ->).
  - rewrite str_app_nil_r in E. symmetry in E.
    by apply (str_cut_none Regex.not_slash_colon) in E.
  - rewrite str_app_nil_r in E.
    by apply (str_cut_none Regex.not_slash_colon) in E.
  - rewrite !str_app_nil_r in E. by subst.
Qed.

Lemma match_model_id_complete ref r :
  reference_grammar ref r -> match_model_id ref = Some r.
Proof.
  intros G.
  assert (S : is_Some (match_model_id ref)).
  { destruct r as [o n v]. unfold reference_grammar in G; cbn in G.
    destruct G as (Ho & Hao & Hn & Han & Hv). unfold match_model_id.
    destruct v as [v|].
    - destruct Hv as (Hv & Hav & ->).
      apply plus_complete; [done | done |]. rewrite char_cons.
      apply plus_complete; [done | done |]. rewrite char_cons.
      pose proof (plus_complete Regex.dot v ""
        (fun version r5 => Regex.at_end r5
           {| owner := o; name := n; version := Some version |}) Hv Hav) as P.
      rewrite str_app_nil_r in P. destruct P as [x ->]; [by eexists |].
      by eexists.
    - subst ref.
      apply plus_complete; [done | done |]. rewrite char_cons.
      pose proof (plus_complete Regex.not_slash_colon n ""
        (fun name r3 => Regex.optional
           (Regex.char ":" r3 (fun r4 =>
              Regex.plus Regex.dot r4 (fun version r5 =>
                Regex.at_end r5
                  {| owner := o; name := name; version := Some version |})))
           (Regex.at_end r3 {| owner := o; name := name; version := None |}))
        Hn Han) as P.
      rewrite str_app_nil_r in P. apply P. cbn. by eexists. }
  destruct S as [r' E]. rewrite E. f_equal.
  apply match_model_id_sound in E. by apply (reference_grammar_unique ref).
Qed.

Lemma reference_grammar_spec ref r :
  reference_grammar ref r <->
  spec_reference_grammar ref r /\
  match version r with
  | Some v => Str.all Regex.dot v = true
  | None => True
  end.
Proof.
  unfold reference_grammar, spec_reference_grammar.
  destruct (version r); tauto.
Qed.

Lemma parseModelId_Ok ref r :
  parseModelId ref = Ok r <-> reference_grammar ref r.
Proof.
  unfold parseModelId. split.
  - destruct (match_model_id ref) eqn:E; [| discriminate].
    injection 1 as ->. by apply match_model_id_sound.
  - intros G. by rewrite (match_model_id_complete ref r G).
Qed.

(** C3, as the specification words it, fails: a version is "everything after
    the first [:]", yet a reference whose version holds a line feed is
    refused, because [.] of the pattern does not match line terminators. *)
Lemma parseModelId_refuses_line_feed_in_version :
  spec_reference_grammar ("a/b:" +:+ two_lines)
    {| owner := "a"; name := "b"; version := Some two_lines |} /\
  parseModelId ("a/b:" +:+ two_lines) =
    Err (Error (invalid_reference_message ("a/b:" +:+ two_lines))).
Proof.
  split; [| reflexivity].
  unfold spec_reference_grammar; cbn. by repeat split.
Qed.

(** On the strings of code units below 256: a string that decomposes as
    [owner/name] or [owner/name:version] -- owner non-empty without [/],
    name non-empty without [/] and [:], version non-empty without line
    terminator -- is parsed to exactly that owner, name and version; a
    string with no such decomposition makes the parser fail with the error
    whose message quotes the string and the expected format. *)
Theorem parseModelId_grammar (ref : string) :
  (forall r, reference_grammar ref r -> parseModelId ref = Ok r) /\
  ((forall r, ~ reference_grammar ref r) ->
   parseModelId ref = Err (Error (invalid_reference_message ref)) /\
   Str.includes (invalid_reference_message ref) ref = true /\
   Str.includes (invalid_reference_message ref)
     "Expected format: owner/name or owner/name:version" = true).
Proof.
  split.
  - intros r G. by apply parseModelId_Ok.
  - intros Hno. split; [| split].
    + unfold parseModelId. destruct (match_model_id ref) as [r|] eqn:E; [| done].
      apply match_model_id_sound in E. by destruct (Hno r).
    + apply str_includes_app.
    + unfold invalid_reference_message.
      rewrite <- (str_app_nil_r
        ". Expected format: owner/name or owner/name:version").
      change (". Expected format: owner/name or owner/name:version" +:+ "")
        with (". " +:+
              "Expected format: owner/name or owner/name:version" +:+ "").
      rewrite <- !str_app_assoc. rewrite str_app_assoc.
      apply str_includes_app.
Qed.

Lemma parseModelId_grammar_witness :
  parseModelId "meta/meta-llama-3-70b-instruct:v1" =
    Ok {| owner := "meta"; name := "meta-llama-3-70b-instruct";
          version := Some "v1" |} /\
  parseModelId "meta-llama" =
    Err (Error (invalid_reference_message "meta-llama")).
Proof.
  split.
  - apply (proj1 (parseModelId_grammar _)).
    unfold reference_grammar; cbn. by repeat split.
  - apply (proj2 (parseModelId_grammar "meta-llama")).
    intros r G. apply parseModelId_Ok in G. vm_compute in G. discriminate G.
Defined.

(** ** The run of makeLanguageModelPrediction, step by step *)

Lemma makeLanguageModelPrediction_run upstream modelId apiKey prompt settings :
  run (makeLanguageModelPrediction upstream modelId apiKey prompt settings) =
  match parseModelId modelId with
  | Err f => (Err f, [])
  | Ok ref =>
      let post := initiation_request apiKey ref settings prompt in
      match answer_post upstream
              ("https://api.replicate.com" +:+ request_path ref)
              ("Bearer " +:+ apiKey) (request_body ref settings prompt) with
      | None => (Err ConnectionFailure, [post])
      | Some response =>
          if ok response then
            match createJsonResponseHandler schema.prediction response with
            | Err f => (Err f, [post])
            | Ok prediction =>
                let get := GET (urls_stream prediction) "text/event-stream" in
                match answer_get upstream (urls_stream prediction) with
                | None => (Err ConnectionFailure, [post; get])
                | Some None => (Err (Error "Missing response body"), [post; get])
                | Some (Some events) =>
                    (Ok (pipeThrough events transform), [post; get])
                end
            end
          else
            (Err (createJsonErrorResponseHandler schema.error detail response),
             [post])
      end
  end.
Proof.
  unfold run, makeLanguageModelPrediction, postJsonToApi, fetch,
    initiation_request, mbind, IO_bind, bind, mret, IO_ret, ret, throw, lift,
    send.
  destruct (parseModelId modelId) as [ref|f]; [| reflexivity]. cbn.
  destruct (answer_post upstream _ _ _) as [response|]; [| reflexivity].
  destruct (ok response); [| reflexivity].
  destruct (createJsonResponseHandler schema.prediction response)
    as [prediction|f]; [| reflexivity].
  cbn. destruct (answer_get upstream _) as [[events|]|]; reflexivity.
Qed.

Lemma doStream_run upstream apiKey modelId settings prompt :
  run (doStream upstream apiKey modelId settings prompt) =
  match run (makeLanguageModelPrediction upstream modelId apiKey prompt settings) with
  | (Ok s, log) =>
      (Ok {| stream := s; stream_rawPrompt := prompt;
             stream_rawSettings := settings |}, log)
  | (Err f, log) => (Err f, log)
  end.
Proof.
  unfold run, doStream, mbind, IO_bind, bind, mret, IO_ret, ret.
  by destruct (makeLanguageModelPrediction _ _ _ _ _ []) as [[s|f] log].
Qed.

Lemma doGenerate_run upstream apiKey modelId settings prompt :
  run (doGenerate upstream apiKey modelId settings prompt) =
  match run (makeLanguageModelPrediction upstream modelId apiKey prompt settings) with
  | (Ok s, log) =>
      match for_await (chunks s) (ending s) [] with
      | Ok output =>
          (Ok {| text := Str.join "" output;
                 generate_finishReason := stop;
                 generate_usage := {| promptTokens := 0; completionTokens := 0 |};
                 generate_rawPrompt := prompt;
                 generate_rawSettings := settings |}, log)
      | Err f => (Err f, log)
      end
  | (Err f, log) => (Err f, log)
  end.
Proof.
  unfold run, doGenerate, mbind, IO_bind, bind, mret, IO_ret, ret, lift.
  destruct (makeLanguageModelPrediction _ _ _ _ _ []) as [[s|f] log];
    [| reflexivity].
  by destruct (for_await _ _ _).
Qed.

(** A reference the parser refuses stops the call before any request. *)
Lemma invalid_reference_sends_nothing upstream apiKey modelId settings prompt f :
  parseModelId modelId = Err f ->
  run (doGenerate upstream apiKey modelId settings prompt) = (Err f, []) /\
  run (doStream upstream apiKey modelId settings prompt) = (Err f, []).
Proof.
  intros P.
  by rewrite doGenerate_run, doStream_run, makeLanguageModelPrediction_run, P.
Qed.

(** ** Routing of the initiation request *)

Lemma parsed_version_truthy modelId ref v :
  parseModelId modelId = Ok ref -> version ref = Some v ->
  truthy (version ref) = true.
Proof.
  intros P E. apply parseModelId_Ok in P.
  destruct P as (_ & _ & _ & _ & Hv). rewrite E in *. destruct Hv as [Hv _].
  by destruct v.
Qed.

(** C4: the first request of a call is the POST built from the parsed
    reference; with a version it goes to [/v1/predictions] and the body
    carries that version, without one it goes to
    [/v1/models/{owner}/{name}/predictions] and the body has no [version]
    key. *)
Theorem request_routing upstream apiKey modelId settings prompt ref :
  parseModelId modelId = Ok ref ->
  exists path body,
    head (run (makeLanguageModelPrediction upstream modelId apiKey prompt
                 settings)).2 =
      Some (POST ("https://api.replicate.com" +:+ path)
                 ("Bearer " +:+ apiKey) body) /\
    match version ref with
    | Some v => path = "/v1/predictions" /\ Body.version body = Some v
    | None =>
        path = "/v1/models/" +:+ owner ref +:+ "/" +:+ name ref +:+
               "/predictions" /\
        Body.version body = None
    end.
Proof.
  intros P. exists (request_path ref), (request_body ref settings prompt).
  split.
  - rewrite makeLanguageModelPrediction_run, P. cbn zeta.
    destruct (answer_post upstream _ _ _) as [response|]; [| reflexivity].
    destruct (ok response); [| reflexivity].
    destruct (createJsonResponseHandler _ _); [| reflexivity].
    by destruct (answer_get upstream _) as [[?|]|].
  - destruct (version ref) as [v|] eqn:E.
    + pose proof (parsed_version_truthy _ _ _ P E) as T.
      unfold request_path, request_body; cbn. rewrite E in *. by rewrite T.
    + unfold request_path, request_body; cbn. by rewrite E.
Qed.

Lemma request_routing_witness :
  parseModelId "meta/llama:v1" =
    Ok {| owner := "meta"; name := "llama"; version := Some "v1" |} /\
  exists path body,
    head (run (makeLanguageModelPrediction rate_limited "meta/llama:v1" "r8_xyz"
                 [User [TextPart "hi"]] no_settings)).2 =
      Some (POST ("https://api.replicate.com" +:+ path) "Bearer r8_xyz" body) /\
    path = "/v1/predictions" /\ Body.version body = Some "v1".
Proof.
  split; [reflexivity |].
  apply (request_routing rate_limited "r8_xyz" "meta/llama:v1" no_settings
           [User [TextPart "hi"]]
           {| owner := "meta"; name := "llama"; version := Some "v1" |}).
  reflexivity.
Defined.

(** ** Failure of the initiation *)

(** C8: when the initiation is answered with a status outside 200-299 and a
    body that validates as [{ detail }], both entry points reject with an
    error whose message contains the detail, and the only request made is
    that one POST: nothing is fetched and nothing is sent again. *)
Theorem initiation_error_surfaces upstream apiKey modelId settings prompt ref
    response body d :
  parseModelId modelId = Ok ref ->
  answer_post upstream ("https://api.replicate.com" +:+ request_path ref)
    ("Bearer " +:+ apiKey) (request_body ref settings prompt) = Some response ->
  ~ (200 <= status response < 300) ->
  json response = Some body ->
  schema.error body = Some {| detail := d |} ->
  exists failure message,
    run (doGenerate upstream apiKey modelId settings prompt) =
      (Err failure, [initiation_request apiKey ref settings prompt]) /\
    run (doStream upstream apiKey modelId settings prompt) =
      (Err failure, [initiation_request apiKey ref settings prompt]) /\
    failure_message failure = Some message /\
    Str.includes message d = true.
Proof.
  intros P A S J V.
  assert (N : ok response = false).
  { unfold ok. apply andb_false_iff.
    destruct (Nat.leb_spec 200 (status response));
      destruct (Nat.ltb_spec (status response) 300); auto. lia. }
  exists (APICallError d), d.
  rewrite doGenerate_run, doStream_run, makeLanguageModelPrediction_run, P.
  cbn zeta. rewrite A, N.
  unfold createJsonErrorResponseHandler. rewrite J, V. cbn.
  by rewrite str_includes_refl.
Qed.

Lemma initiation_error_surfaces_witness :
  exists failure message,
    run (doGenerate rate_limited "r8_xyz" "meta/llama" no_settings
           [User [TextPart "hi"]]) =
      (Err failure,
       [initiation_request "r8_xyz"
          {| owner := "meta"; name := "llama"; version := None |}
          no_settings [User [TextPart "hi"]]]) /\
    run (doStream rate_limited "r8_xyz" "meta/llama" no_settings
           [User [TextPart "hi"]]) =
      (Err failure,
       [initiation_request "r8_xyz"
          {| owner := "meta"; name := "llama"; version := None |}
          no_settings [User [TextPart "hi"]]]) /\
    failure_message failure = Some message /\
    Str.includes message "rate limited" = true.
Proof.
  apply (initiation_error_surfaces rate_limited "r8_xyz" "meta/llama"
           no_settings [User [TextPart "hi"]]
           {| owner := "meta"; name := "llama"; version := None |}
           {| status := 429; statusText := "Too Many Requests";
              json := Some (JObject [("detail", JString "rate limited")]) |}
           (JObject [("detail", JString "rate limited")]) "rate limited").
  - reflexivity.
  - reflexivity.
  - cbn. lia.
  - reflexivity.
  - reflexivity.
Defined.

(** ** The transcoder *)

Lemma pump_transform events source_ending c :
  terminated c = false ->
  pump transform events source_ending c =
  {| chunks := queue c ++ spec_parts events;
     ending := if has_done events then Closed else source_ending |}.
Proof.
  revert c. induction events as [|ev rest IH]; intros c Hc.
  - cbn. by rewrite app_nil_r.
  - cbn [pump]. unfold spec_parts, has_done, output_data, transform.
    cbn [before_done existsb].
    destruct (event_is ev "done") eqn:D.
    + reflexivity.
    + destruct (event_is ev "output") eqn:O.
      * cbn [terminated enqueue]. rewrite Hc. rewrite IH by done.
        cbn [List.filter]. rewrite O.
        unfold spec_parts, has_done, output_data. cbn.
        by rewrite <- app_assoc.
      * rewrite Hc. rewrite IH by done.
        cbn [List.filter]. rewrite O.
        by unfold spec_parts, has_done, output_data.
Qed.

Lemma pipeThrough_transform (source : ReadableStream ParsedEvent) :
  pipeThrough source transform =
  {| chunks := spec_parts (chunks source);
     ending := if has_done (chunks source) then Closed else ending source |}.
Proof. unfold pipeThrough. by rewrite pump_transform. Qed.

(** C1: the stream produced by the transcoder, for any sequence of parsed
    events and any way the source ends, consists of one text delta carrying
    the raw data of each [output] event that precedes the first [done], in
    arrival order, followed by exactly one finish part (reason stop, zero
    token counts) if a [done] arrived; the stream is closed at the first
    [done] whatever follows it, and events of any other name leave no part
    and do not close it. *)
Theorem transcoder_parts (source : ReadableStream ParsedEvent) :
  chunks (pipeThrough source transform) =
    map text_delta (output_data (before_done (chunks source))) ++
    (if has_done (chunks source)
     then [finish stop {| promptTokens := 0; completionTokens := 0 |}]
     else []) /\
  ending (pipeThrough source transform) =
    (if has_done (chunks source) then Closed else ending source).
Proof.
  rewrite pipeThrough_transform. split; reflexivity.
Qed.

(** What follows the first [done] is never read: two sources that agree up to
    it produce the same stream. *)
Lemma transcoder_stops_at_done pre d post e post' e' :
  event_is d "done" = true ->
  pipeThrough {| chunks := pre ++ d :: post; ending := e |} transform =
  pipeThrough {| chunks := pre ++ d :: post'; ending := e' |} transform.
Proof.
  intros D. unfold pipeThrough. rewrite !pump_transform by done.
  cbn [chunks ending queue].
  assert (B : forall p, before_done (pre ++ d :: p) = before_done pre).
  { intros p. induction pre as [|x pre IH]; cbn; [by rewrite D |].
    destruct (event_is x "done"); [done | by rewrite IH]. }
  assert (H : forall p, has_done (pre ++ d :: p) = true).
  { intros p. unfold has_done. rewrite existsb_app. cbn. rewrite D.
    apply orb_true_r. }
  unfold spec_parts. by rewrite !B, !H.
Qed.

(** An event named neither [done] nor [output] changes nothing. *)
Lemma transcoder_ignores_other_events pre ev post e :
  event_is ev "done" = false -> event_is ev "output" = false ->
  pipeThrough {| chunks := pre ++ ev :: post; ending := e |} transform =
  pipeThrough {| chunks := pre ++ post; ending := e |} transform.
Proof.
  intros D O. unfold pipeThrough. rewrite !pump_transform by done.
  cbn [chunks ending queue].
  assert (B : before_done (pre ++ ev :: post) = before_done (pre ++ post) \/
              exists l, before_done (pre ++ ev :: post) = l ++ ev :: before_done post /\
                        before_done (pre ++ post) = l ++ before_done post).
  { induction pre as [|x pre IH]; cbn.
    - rewrite D. right. by exists [].
    - destruct (event_is x "done"); [by left |].
      destruct IH as [-> | (l & -> & ->)]; [by left |].
      right. by exists (x :: l). }
  assert (H : has_done (pre ++ ev :: post) = has_done (pre ++ post)).
  { unfold has_done. rewrite !existsb_app. cbn. by rewrite D. }
  unfold spec_parts. rewrite H. f_equal. f_equal.
  destruct B as [-> | (l & -> & ->)]; [done |].
  unfold output_data. rewrite !List.filter_app. cbn. by rewrite O.
Qed.

Example transcoder_hello_world :
  pipeThrough {| chunks := hello_world_events; ending := Errored |} transform =
  {| chunks := [text_delta "Hello"; text_delta " world";
                finish stop {| promptTokens := 0; completionTokens := 0 |}];
     ending := Closed |}.
Proof. reflexivity. Qed.

(** ** doGenerate against doStream *)

Lemma for_await_spec parts stream_ending output :
  for_await parts stream_ending output =
  if forallb is_text_delta parts then
    match stream_ending with
    | Closed => Ok (output ++ leading_text_deltas parts)
    | Errored => Err StreamFailure
    end
  else Ok (output ++ leading_text_deltas parts).
Proof.
  revert output. induction parts as [|part rest IH]; intros output.
  - cbn. rewrite app_nil_r. by destruct stream_ending.
  - destruct part; cbn; rewrite ?app_nil_r; try reflexivity.
    rewrite IH, <- !app_assoc. reflexivity.
Qed.

Lemma forallb_text_delta (l : list string) :
  forallb is_text_delta (map text_delta l) = true.
Proof. induction l; cbn; done. Qed.

Lemma no_finish_among_text_deltas (l : list string) :
  existsb is_finish (map text_delta l) = false.
Proof. induction l; cbn; done. Qed.

Lemma leading_text_deltas_map (l : list string) :
  leading_text_deltas (map text_delta l) = l.
Proof. induction l as [|x l IH]; cbn; [done | by rewrite IH]. Qed.

Lemma before_done_all (events : list ParsedEvent) :
  has_done events = false -> before_done events = events.
Proof.
  induction events as [|ev rest IH]; cbn; [done |].
  destruct (event_is ev "done"); cbn; [done |]. intros H. by rewrite IH.
Qed.

(** On a stream that comes out of the transcoder the loop of [doGenerate]
    throws exactly when the stream ends in error. *)
Lemma for_await_transcoded (source : ReadableStream ParsedEvent) :
  for_await (chunks (pipeThrough source transform))
    (ending (pipeThrough source transform)) [] =
  match ending (pipeThrough source transform) with
  | Closed => Ok (leading_text_deltas (chunks (pipeThrough source transform)))
  | Errored => Err StreamFailure
  end.
Proof.
  rewrite for_await_spec, pipeThrough_transform. cbn [app chunks ending].
  unfold spec_parts.
  destruct (has_done (chunks source)); [by destruct (forallb _ _) |].
  rewrite app_nil_r, forallb_text_delta. by destruct (ending source).
Qed.

Lemma makeLanguageModelPrediction_transcoded upstream modelId apiKey prompt
    settings s log :
  run (makeLanguageModelPrediction upstream modelId apiKey prompt settings) =
    (Ok s, log) ->
  exists source, s = pipeThrough source transform.
Proof.
  rewrite makeLanguageModelPrediction_run.
  destruct (parseModelId modelId); [| discriminate]. cbn zeta.
  destruct (answer_post upstream _ _ _) as [response|]; [| discriminate].
  destruct (ok response); [| discriminate].
  destruct (createJsonResponseHandler _ _) as [prediction|]; [| discriminate].
  destruct (answer_get upstream _) as [[events|]|]; try discriminate.
  injection 1 as <- _. by exists events.
Qed.

(** C2 (amended): whatever the upstream does, [doGenerate] rejects exactly
    when [doStream] fails, where failing covers both that its promise rejects
    (then [doGenerate] rejects with the same error) and that the stream it
    resolved to ends in error; otherwise [doGenerate] returns the
    concatenation, in order, of the text of the text deltas that the stream
    of [doStream] yields before its first part of another type, with finish
    reason stop and zero token counts. *)
Theorem doGenerate_refines_doStream upstream apiKey modelId settings prompt :
  let generated := run (doGenerate upstream apiKey modelId settings prompt) in
  let streamed := run (doStream upstream apiKey modelId settings prompt) in
  rejects generated = stream_fails streamed /\
  generated.2 = streamed.2 /\
  match streamed.1 with
  | Err f => generated.1 = Err f
  | Ok r =>
      match ending (stream r) with
      | Closed =>
          generated.1 =
          Ok {| text := foldr String.append ""
                          (leading_text_deltas (chunks (stream r)));
                generate_finishReason := stop;
                generate_usage := {| promptTokens := 0; completionTokens := 0 |};
                generate_rawPrompt := prompt;
                generate_rawSettings := settings |}
      | Errored => generated.1 = Err StreamFailure
      end
  end.
Proof.
  cbn zeta. rewrite doGenerate_run, doStream_run.
  destruct (run (makeLanguageModelPrediction _ _ _ _ _)) as [[s|f] log] eqn:E;
    [| done].
  apply makeLanguageModelPrediction_transcoded in E as [source ->].
  rewrite for_await_transcoded. cbn.
  destruct (ending (pipeThrough source transform)); [| done].
  by rewrite str_join_empty_sep.
Qed.

(** The example of the specification: [output "Hello"], [output " world"],
    [done]. *)
Example hello_world_streamed :
  (run (doStream (serving {| chunks := hello_world_events; ending := Closed |})
          "r8_xyz" "meta/llama" no_settings [User [TextPart "hi"]])).1 =
  Ok {| stream :=
          {| chunks := [text_delta "Hello"; text_delta " world";
                        finish stop {| promptTokens := 0; completionTokens := 0 |}];
             ending := Closed |};
        stream_rawPrompt := [User [TextPart "hi"]];
        stream_rawSettings := no_settings |}.
Proof. reflexivity. Qed.

Example hello_world_generated :
  (run (doGenerate (serving {| chunks := hello_world_events; ending := Closed |})
          "r8_xyz" "meta/llama" no_settings [User [TextPart "hi"]])).1 =
  Ok {| text := "Hello world";
        generate_finishReason := stop;
        generate_usage := {| promptTokens := 0; completionTokens := 0 |};
        generate_rawPrompt := [User [TextPart "hi"]];
        generate_rawSettings := no_settings |}.
Proof. reflexivity. Qed.

(** C2 as the specification words it fails: when the upstream stream breaks
    before any [done], [doStream] has resolved (it does not fail) while
    [doGenerate] rejects. *)
Example broken_stream :
  let upstream :=
    serving {| chunks := [ {| event := Some "output"; data := "Hel" |} ];
               ending := Errored |} in
  rejects (run (doStream upstream "r8_xyz" "meta/llama" no_settings [])) = false /\
  (run (doGenerate upstream "r8_xyz" "meta/llama" no_settings [])).1 =
    Err StreamFailure.
Proof. split; reflexivity. Qed.

(** ** The upstream closes without [done] *)

(** C10: when the upstream serves its events and closes without any [done],
    [doStream] resolves to a stream that holds the text deltas only (no finish
    part) and ends normally, and [doGenerate] resolves to the concatenation of
    the fragments with finish reason stop and zero token counts. *)
Theorem closed_without_done upstream apiKey modelId settings prompt source :
  delivers upstream apiKey modelId settings prompt source ->
  ending source = Closed ->
  has_done (chunks source) = false ->
  exists log,
    run (doStream upstream apiKey modelId settings prompt) =
      (Ok {| stream := {| chunks := map text_delta (output_data (chunks source));
                          ending := Closed |};
             stream_rawPrompt := prompt;
             stream_rawSettings := settings |}, log) /\
    existsb is_finish (map text_delta (output_data (chunks source))) = false /\
    run (doGenerate upstream apiKey modelId settings prompt) =
      (Ok {| text := foldr String.append "" (output_data (chunks source));
             generate_finishReason := stop;
             generate_usage := {| promptTokens := 0; completionTokens := 0 |};
             generate_rawPrompt := prompt;
             generate_rawSettings := settings |}, log).
Proof.
  intros (ref & response & prediction & P & A & O & V & G) C D.
  assert (S : pipeThrough source transform =
              {| chunks := map text_delta (output_data (chunks source));
                 ending := Closed |}).
  { rewrite pipeThrough_transform. unfold spec_parts.
    by rewrite D, C, app_nil_r, before_done_all. }
  eexists.
  rewrite doGenerate_run, doStream_run, makeLanguageModelPrediction_run, P.
  cbn zeta. rewrite A, O, V, G, S. cbn [chunks ending].
  rewrite for_await_spec, forallb_text_delta, leading_text_deltas_map.
  cbn [app]. rewrite str_join_empty_sep. split; [done |]. split; [| done].
  apply no_finish_among_text_deltas.
Qed.

Lemma closed_without_done_witness :
  exists log,
    run (doStream (serving cut_short) "r8_xyz" "meta/llama" no_settings
           [User [TextPart "hi"]]) =
      (Ok {| stream := {| chunks := [text_delta "Hello"; text_delta " wor"];
                          ending := Closed |};
             stream_rawPrompt := [User [TextPart "hi"]];
             stream_rawSettings := no_settings |}, log) /\
    existsb is_finish [text_delta "Hello"; text_delta " wor"] = false /\
    run (doGenerate (serving cut_short) "r8_xyz" "meta/llama" no_settings
           [User [TextPart "hi"]]) =
      (Ok {| text := "Hello wor";
             generate_finishReason := stop;
             generate_usage := {| promptTokens := 0; completionTokens := 0 |};
             generate_rawPrompt := [User [TextPart "hi"]];
             generate_rawSettings := no_settings |}, log).
Proof.
  apply (closed_without_done (serving cut_short) "r8_xyz" "meta/llama"
           no_settings [User [TextPart "hi"]] cut_short).
  - exists {| owner := "meta"; name := "llama"; version := None |},
      {| status := 201; statusText := "Created";
         json := Some (JObject
           [("output", JNull);
            ("urls", JObject [("stream", JString "https://stream.example/p1")])]) |},
      {| output := None; urls_stream := "https://stream.example/p1" |}.
    repeat split; reflexivity.
  - reflexivity.
  - reflexivity.
Defined.

(** ** The default prompt transformer *)

Lemma transformPrompt_loop_spec prompt parts :
  transformPrompt_loop prompt parts = parts ++ message_blocks prompt.
Proof.
  revert parts. induction prompt as [|m rest IH]; intros parts; cbn.
  - by rewrite app_nil_r.
  - destruct m; rewrite IH; by rewrite <- ?app_assoc.
Qed.

(** What the code computes: inside one message the text blocks are separated
    by commas, between messages nothing is inserted. *)
Lemma transformPrompt_spec prompt :
  transformPrompt prompt =
  foldr String.append "" (map (Str.join ",") (message_blocks prompt)).
Proof.
  unfold transformPrompt. by rewrite transformPrompt_loop_spec, str_join_empty_sep.
Qed.

(** With at most one text block per message the code and the specification
    agree. *)
Lemma transformPrompt_single_blocks prompt :
  Forall (fun blocks => length blocks <= 1) (message_blocks prompt) ->
  transformPrompt prompt = spec_transformPrompt prompt.
Proof.
  rewrite transformPrompt_spec. unfold spec_transformPrompt.
  induction 1 as [|blocks rest Hb _ IH]; cbn; [done |].
  rewrite IH. destruct blocks as [|x [|y blocks]]; cbn in *; [done | done | lia].
Qed.

(** C5 at a user message of two text blocks: the specification asks for
    ["ab"], the code returns ["a,b"].  [parts] receives the array of the
    message's texts as one element, and [join] prints an array element with
    commas. *)
Theorem transformPrompt_inserts_commas :
  transformPrompt two_blocks = "a,b" /\
  spec_transformPrompt two_blocks = "ab".
Proof. split; reflexivity. Qed.

(** ** The input object of the request body *)

Lemma transformSystemPrompt_loop_spec prompt parts :
  transformSystemPrompt_loop prompt parts = parts ++ system_contents prompt.
Proof.
  revert parts. induction prompt as [|m rest IH]; intros parts; cbn.
  - by rewrite app_nil_r.
  - destruct m; rewrite IH; by rewrite <- ?app_assoc.
Qed.

Lemma transformSystemPrompt_spec prompt :
  transformSystemPrompt prompt =
  match system_contents prompt with
  | [] => None
  | _ :: _ => Some (foldr String.append "" (system_contents prompt))
  end.
Proof.
  unfold transformSystemPrompt. rewrite transformSystemPrompt_loop_spec.
  cbn [app]. destruct (system_contents prompt); cbn [length]; [done |].
  by rewrite str_join_empty_sep.
Qed.

Lemma truthy_Some (s : string) : truthy (Some s) = true <-> s <> "".
Proof. destruct s; cbn; split; done. Qed.

(** Every key of the input object, read back. *)
Lemma input_lookup (ref : ModelRef) (settings : ReplicateModelSettings)
    (prompt : LanguageModelV1Prompt) (k : string) :
  Body.input (request_body ref settings prompt) !! k =
  if bool_decide (k = system_prompt_key settings) &&
     truthy (transformedSystemPrompt settings prompt)
  then JString <$> transformedSystemPrompt settings prompt
  else if bool_decide (k = prompt_key settings)
       then Some (JString (transformedPrompt settings prompt))
       else (nullish (extraInput settings) ∅ : gmap string JsonValue) !! k.
Proof.
  unfold request_body, system_prompt_key, prompt_key. cbn [Body.input].
  destruct (transformedSystemPrompt settings prompt) as [sys|] eqn:E.
  - destruct (truthy (Some sys)) eqn:T.
    + rewrite andb_true_r. case_bool_decide as Hk.
      * subst k. by rewrite lookup_insert_eq.
      * rewrite lookup_insert_ne by done. case_bool_decide as Hp.
        -- subst k. by rewrite lookup_insert_eq.
        -- by rewrite lookup_insert_ne.
    + rewrite andb_false_r. case_bool_decide as Hp.
      * subst k. by rewrite lookup_insert_eq.
      * by rewrite lookup_insert_ne.
  - cbn [truthy]. rewrite andb_false_r. case_bool_decide as Hp.
    + subst k. by rewrite lookup_insert_eq.
    + by rewrite lookup_insert_ne.
Qed.

(** C9: the input object holds every pair of [extraInput] whose key is not
    the prompt key nor (when a system prompt is emitted) the system-prompt
    key; the prompt key holds the transformed prompt and, when a system prompt
    is emitted, the system-prompt key holds the transformed system prompt,
    whatever [extraInput] has under these keys; and the object holds nothing
    else. *)
Theorem input_precedence (ref : ModelRef) (settings : ReplicateModelSettings)
    (prompt : LanguageModelV1Prompt) :
  let input := Body.input (request_body ref settings prompt) in
  let extra : gmap string JsonValue := nullish (extraInput settings) ∅ in
  let emitted := truthy (transformedSystemPrompt settings prompt) in
  (forall k v,
     extra !! k = Some v -> k <> prompt_key settings ->
     emitted = false \/ k <> system_prompt_key settings ->
     input !! k = Some v) /\
  (emitted = false \/ prompt_key settings <> system_prompt_key settings ->
   input !! prompt_key settings =
     Some (JString (transformedPrompt settings prompt))) /\
  (emitted = true ->
   input !! system_prompt_key settings =
     JString <$> transformedSystemPrompt settings prompt) /\
  (forall k,
     k <> prompt_key settings ->
     emitted = false \/ k <> system_prompt_key settings ->
     input !! k = extra !! k).
Proof.
  cbn zeta.
  assert (Hother : forall k,
    k <> prompt_key settings ->
    truthy (transformedSystemPrompt settings prompt) = false \/
      k <> system_prompt_key settings ->
    Body.input (request_body ref settings prompt) !! k =
    (nullish (extraInput settings) ∅ : gmap string JsonValue) !! k).
  { intros k Hp Hs. rewrite input_lookup.
    rewrite (bool_decide_eq_false_2 (k = prompt_key settings)) by done.
    destruct Hs as [-> | Hs]; [by rewrite andb_false_r |].
    by rewrite (bool_decide_eq_false_2 _ Hs). }
  split; [| split; [| split]].
  - intros k v Hv Hp Hs. by rewrite Hother.
  - intros Hs. rewrite input_lookup.
    rewrite (bool_decide_eq_true_2 (prompt_key settings = prompt_key settings))
      by done.
    destruct Hs as [-> | Hs]; [by rewrite andb_false_r |].
    by rewrite (bool_decide_eq_false_2 _ Hs).
  - intros He. rewrite input_lookup, He.
    by rewrite bool_decide_eq_true_2.
  - exact Hother.
Qed.

Lemma input_precedence_witness :
  Body.input (request_body llama clashing_extra brief_prompt) !! "top_p" =
    Some (JNumber 1) /\
  Body.input (request_body llama clashing_extra brief_prompt) !! "prompt" =
    Some (JString "hi") /\
  Body.input (request_body llama clashing_extra brief_prompt) !! "system_prompt" =
    Some (JString "Be brief.").
Proof.
  pose proof (input_precedence llama clashing_extra brief_prompt)
    as (Hextra & Hprompt & Hsystem & _).
  split; [| split].
  - apply Hextra; [by vm_compute | discriminate | right; discriminate].
  - apply Hprompt. right. discriminate.
  - apply Hsystem. reflexivity.
Defined.

(** C6 as the specification words it fails on a system message of empty
    content: there is a system message, and the body has no system-prompt
    field. *)
Lemma empty_system_message_yields_no_field :
  system_contents [System ""] = [""] /\
  Body.input (request_body llama no_settings [System ""]) !! "system_prompt" =
    None.
Proof. split; vm_compute; reflexivity. Qed.

(** C6 (amended): with the default transformers, a prompt without system
    messages puts no system-prompt field in the body (the extra input and the
    prompt key not using that key, as under the default settings); a prompt
    whose system messages have a non-empty concatenated content puts that
    concatenation under the configured system-prompt key; and when that
    concatenation is empty the input object is the extra input with the
    prompt, nothing more. *)
Theorem system_prompt_field (ref : ModelRef) (settings : ReplicateModelSettings)
    (prompt : LanguageModelV1Prompt) :
  promptTransformer settings = None ->
  (system_contents prompt = [] ->
   (nullish (extraInput settings) ∅ : gmap string JsonValue)
     !! system_prompt_key settings = None ->
   prompt_key settings <> system_prompt_key settings ->
   Body.input (request_body ref settings prompt) !! system_prompt_key settings =
     None) /\
  (foldr String.append "" (system_contents prompt) <> "" ->
   Body.input (request_body ref settings prompt) !! system_prompt_key settings =
     Some (JString (foldr String.append "" (system_contents prompt)))) /\
  (foldr String.append "" (system_contents prompt) = "" ->
   Body.input (request_body ref settings prompt) =
     <[prompt_key settings := JString (transformPrompt prompt)]>
       (nullish (extraInput settings) ∅)).
Proof.
  intros Hd.
  assert (Hs : transformedSystemPrompt settings prompt =
               transformSystemPrompt prompt).
  { unfold transformedSystemPrompt. by rewrite Hd. }
  assert (Hp : transformedPrompt settings prompt = transformPrompt prompt).
  { unfold transformedPrompt. by rewrite Hd. }
  split; [| split].
  - intros Hnone Hextra Hkeys. rewrite input_lookup, Hs, Hp.
    rewrite transformSystemPrompt_spec, Hnone. cbn [truthy].
    rewrite andb_false_r. case_bool_decide; [congruence | done].
  - intros Hne. rewrite input_lookup, Hs.
    rewrite transformSystemPrompt_spec.
    destruct (system_contents prompt) as [|c l] eqn:E; [done |].
    rewrite bool_decide_eq_true_2 by done.
    apply truthy_Some in Hne. by rewrite Hne.
  - intros He. unfold request_body, prompt_key. cbn [Body.input].
    rewrite Hs, Hp, transformSystemPrompt_spec.
    destruct (system_contents prompt) as [|c l] eqn:E; [done |].
    rewrite He. reflexivity.
Qed.

Lemma system_prompt_field_witness :
  Body.input (request_body llama no_settings [User [TextPart "hi"]])
    !! "system_prompt" = None /\
  Body.input (request_body llama no_settings brief_prompt) !! "system_prompt" =
    Some (JString "Be brief.").
Proof.
  split.
  - apply (proj1 (system_prompt_field llama no_settings [User [TextPart "hi"]]
                    eq_refl)); [reflexivity | reflexivity | discriminate].
  - apply (proj1 (proj2 (system_prompt_field llama no_settings brief_prompt
                           eq_refl))).
    discriminate.
Defined.

(** ** Which transformer computes the system prompt *)

(** C7: when [promptTransformer] is supplied, the system prompt is that same
    transformer applied to the prompt, and it is what the body holds under
    the system-prompt key (when not empty); when it is not supplied the
    default system-prompt transformer is used; and whatever is stored in
    [systemPromptTransformer], the body, the requests and the stream are the
    same. *)
Theorem system_prompt_transformer_unused (settings : ReplicateModelSettings)
    (prompt : LanguageModelV1Prompt) :
  (forall f, promptTransformer settings = Some f ->
     transformedSystemPrompt settings prompt = Some (f prompt) /\
     forall ref, f prompt <> "" ->
       Body.input (request_body ref settings prompt)
         !! system_prompt_key settings = Some (JString (f prompt))) /\
  (promptTransformer settings = None ->
     transformedSystemPrompt settings prompt = transformSystemPrompt prompt) /\
  (forall g ref,
     request_body ref (with_systemPromptTransformer g settings) prompt =
     request_body ref settings prompt) /\
  (forall g upstream modelId apiKey,
     run (makeLanguageModelPrediction upstream modelId apiKey prompt
            (with_systemPromptTransformer g settings)) =
     run (makeLanguageModelPrediction upstream modelId apiKey prompt settings)).
Proof.
  split; [| split; [| split]].
  - intros f Hf.
    assert (E : transformedSystemPrompt settings prompt = Some (f prompt)).
    { unfold transformedSystemPrompt. by rewrite Hf. }
    split; [done |]. intros ref Hne.
    rewrite input_lookup, E. rewrite bool_decide_eq_true_2 by done.
    apply truthy_Some in Hne. by rewrite Hne.
  - intros Hn. unfold transformedSystemPrompt. by rewrite Hn.
  - reflexivity.
  - reflexivity.
Qed.

Lemma system_prompt_transformer_unused_witness :
  transformedSystemPrompt both_transformers brief_prompt =
    Some "[INST]hi[/INST]" /\
  Body.input (request_body llama both_transformers brief_prompt)
    !! "system_prompt" = Some (JString "[INST]hi[/INST]") /\
  transformedSystemPrompt no_settings brief_prompt = Some "Be brief.".
Proof.
  pose proof (system_prompt_transformer_unused both_transformers brief_prompt)
    as (Hsome & _).
  pose proof (system_prompt_transformer_unused no_settings brief_prompt)
    as (_ & Hnone & _).
  destruct (Hsome inst_transformer eq_refl) as [E B].
  split; [exact E |]. split; [apply (B llama); discriminate |].
  exact (Hnone eq_refl).
Defined.

(** * Further properties of the code *)

(** ** What parseModelId accepts and refuses *)

Lemma parseModelId_no_grammar ref :
  (forall r, ~ reference_grammar ref r) ->
  parseModelId ref = Err (Error (invalid_reference_message ref)).
Proof.
  intros Hno. unfold parseModelId.
  destruct (match_model_id ref) as [r|] eqn:E; [| done].
  apply match_model_id_sound in E. by destruct (Hno r).
Qed.

(** X1: whatever [parseModelId] returns reads back as its input: owner, [/],
    name and, when there is a version, [:] and the version, with nothing
    trimmed or rewritten; the owner and the name are non-empty and free of
    [/], the name free of [:], a version non-empty and on one line. *)
Theorem parseModelId_reassembles ref r :
  parseModelId ref = Ok r ->
  reassemble r = ref /\
  owner r <> "" /\ Str.all Regex.not_slash (owner r) = true /\
  name r <> "" /\ Str.all Regex.not_slash_colon (name r) = true /\
  (forall v, version r = Some v -> v <> "" /\ Str.all Regex.dot v = true).
Proof.
  intros P. apply parseModelId_Ok in P.
  destruct P as (Ho & Hao & Hn & Han & Hv). unfold reassemble.
  destruct (version r) as [v|].
  - destruct Hv as (Hv & Hav & ->). split_and!; try done.
    by intros ? [= <-].
  - subst ref. rewrite str_app_nil_r. split_and!; done.
Qed.

Lemma parseModelId_reassembles_witness :
  reassemble {| owner := "meta"; name := "llama"; version := Some "v1:a/b" |} =
    "meta/llama:v1:a/b".
Proof.
  apply (parseModelId_reassembles "meta/llama:v1:a/b"
           {| owner := "meta"; name := "llama"; version := Some "v1:a/b" |}).
  reflexivity.
Defined.

(** X2: references the pattern cannot match, each refused with the error
    that quotes it: one without any [/]; one that starts with [/]; one with a
    second [/] before any [:]; one that ends in the [:] that should introduce
    the version. *)
Theorem parseModelId_refusals (ref : string) :
  (Str.all Regex.not_slash ref = true ->
   parseModelId ref = Err (Error (invalid_reference_message ref))) /\
  (forall x, ref = "/" +:+ x ->
   parseModelId ref = Err (Error (invalid_reference_message ref))) /\
  (forall o n x,
     ref = o +:+ "/" +:+ n +:+ "/" +:+ x ->
     Str.all Regex.not_slash o = true ->
     Str.all Regex.not_slash_colon n = true ->
     parseModelId ref = Err (Error (invalid_reference_message ref))) /\
  (forall o n,
     ref = o +:+ "/" +:+ n +:+ ":" ->
     Str.all Regex.not_slash o = true ->
     Str.all Regex.not_slash_colon n = true ->
     parseModelId ref = Err (Error (invalid_reference_message ref))).
Proof.
  split; [| split; [| split]].
  - intros Hall. apply parseModelId_no_grammar.
    intros r (_ & _ & _ & _ & Hv).
    assert (E : exists t, ref = owner r +:+ String "/" t).
    { destruct (version r); [destruct Hv as (_ & _ & ->) | subst ref];
        by eexists. }
    destruct E as [t E]. by apply (str_cut_none Regex.not_slash) in E.
  - intros x ->. apply parseModelId_no_grammar.
    intros r (Ho & Hao & _ & _ & Hv).
    assert (E : exists t, "" +:+ String "/" x = owner r +:+ String "/" t).
    { destruct (version r); [destruct Hv as (_ & _ & Hv) |];
        cbn in *; rewrite Hv; by eexists. }
    destruct E as [t E].
    by apply (str_cut_unique Regex.not_slash) in E as (E & _).
  - intros o n x -> Hao Han. apply parseModelId_no_grammar.
    intros r (_ & Hao' & _ & Han' & Hv).
    assert (E : exists tail,
               o +:+ String "/" (n +:+ String "/" x) =
               owner r +:+ String "/" (name r +:+ tail) /\
               (tail = "" \/ exists v, tail = String ":" v)).
    { destruct (version r) as [v|].
      - destruct Hv as (_ & _ & Hv). exists (String ":" v). split; [done |].
        right. by eexists.
      - exists "". rewrite str_app_nil_r. split; [done | by left]. }
    destruct E as (tail & E & Htail).
    apply (str_cut_unique Regex.not_slash) in E as (_ & _ & E); try done.
    destruct Htail as [-> | [v ->]].
    + rewrite str_app_nil_r in E. symmetry in E.
      by apply (str_cut_none Regex.not_slash_colon) in E.
    + by apply (str_cut_unique Regex.not_slash_colon) in E as (_ & [=] & _).
  - intros o n -> Hao Han. apply parseModelId_no_grammar.
    intros r (_ & Hao' & _ & Han' & Hv).
    destruct (version r) as [v|].
    + destruct Hv as (Hne & _ & E).
      change (o +:+ String "/" (n +:+ String ":" "") =
              owner r +:+ String "/" (name r +:+ String ":" v)) in E.
      apply (str_cut_unique Regex.not_slash) in E as (_ & _ & E); try done.
      by apply (str_cut_unique Regex.not_slash_colon) in E as (_ & _ & E).
    + change (o +:+ String "/" (n +:+ String ":" "") =
              owner r +:+ String "/" (name r)) in Hv.
      apply (str_cut_unique Regex.not_slash) in Hv as (_ & _ & E); try done.
      symmetry in E. by apply (str_cut_none Regex.not_slash_colon) in E.
Qed.

Lemma parseModelId_refusals_witness :
  parseModelId "llama" = Err (Error (invalid_reference_message "llama")) /\
  parseModelId "/llama" = Err (Error (invalid_reference_message "/llama")) /\
  parseModelId "meta/llama/3" =
    Err (Error (invalid_reference_message "meta/llama/3")) /\
  parseModelId "meta/llama:" =
    Err (Error (invalid_reference_message "meta/llama:")).
Proof.
  split; [| split; [| split]].
  - apply (proj1 (parseModelId_refusals "llama")). reflexivity.
  - apply (proj1 (proj2 (parseModelId_refusals "/llama")) "llama").
    reflexivity.
  - apply (proj1 (proj2 (proj2 (parseModelId_refusals "meta/llama/3")))
             "meta" "llama" "3"); reflexivity.
  - apply (proj2 (proj2 (proj2 (parseModelId_refusals "meta/llama:")))
             "meta" "llama"); reflexivity.
Defined.

(** ** The requests of a call *)

Lemma ok_in_range (response : HttpResponse) :
  200 <= status response < 300 -> ok response = true.
Proof.
  intros [H1 H2]. unfold ok. apply andb_true_iff. split.
  - by apply Nat.leb_le.
  - by apply Nat.ltb_lt.
Qed.

(** X3: for a model built without a custom [promptTransformer] (the default
    transformers always return), when the parser refuses the model id every
    call of either entry point rejects with the invalid-reference error and
    sends nothing. *)
Theorem refused_reference_sends_nothing upstream apiKey modelId settings
    options f :
  promptTransformer (nullish settings no_settings) = None ->
  parseModelId modelId = Err f ->
  let model := llm (createReplicateProvider upstream apiKey) modelId settings in
  f = Error (invalid_reference_message modelId) /\
  run (Model.doGenerate model options) = (Err f, []) /\
  run (Model.doStream model options) = (Err f, []).
Proof.
  intros _ P. cbn zeta. split.
  - unfold parseModelId in P.
    destruct (match_model_id modelId); [discriminate | by injection P].
  - by apply invalid_reference_sends_nothing.
Qed.

Lemma refused_reference_sends_nothing_witness :
  run (Model.doGenerate
         (llm (createReplicateProvider rate_limited "r8_xyz") "llama" None)
         {| inputFormat := prompt_format; mode := regular [];
            prompt := [User [TextPart "hi"]] |}) =
    (Err (Error (invalid_reference_message "llama")), []).
Proof.
  apply (refused_reference_sends_nothing rate_limited "r8_xyz" "llama" None
           {| inputFormat := prompt_format; mode := regular [];
              prompt := [User [TextPart "hi"]] |}
           (Error (invalid_reference_message "llama"))).
  - reflexivity.
  - reflexivity.
Defined.


(** X5: when the response to the stream request has no body, both entry
    points reject with the error "Missing response body", after the two
    requests. *)
Theorem missing_response_body upstream apiKey modelId settings prompt ref
    response prediction :
  parseModelId modelId = Ok ref ->
  answer_post upstream ("https://api.replicate.com" +:+ request_path ref)
    ("Bearer " +:+ apiKey) (request_body ref settings prompt) = Some response ->
  200 <= status response < 300 ->
  createJsonResponseHandler schema.prediction response = Ok prediction ->
  answer_get upstream (urls_stream prediction) = Some None ->
  run (doGenerate upstream apiKey modelId settings prompt) =
    (Err (Error "Missing response body"),
     [initiation_request apiKey ref settings prompt;
      GET (urls_stream prediction) "text/event-stream"]) /\
  run (doStream upstream apiKey modelId settings prompt) =
    (Err (Error "Missing response body"),
     [initiation_request apiKey ref settings prompt;
      GET (urls_stream prediction) "text/event-stream"]).
Proof.
  intros P A S V G. apply ok_in_range in S.
  rewrite doGenerate_run, doStream_run, makeLanguageModelPrediction_run, P.
  cbn zeta. by rewrite A, S, V, G.
Qed.

Lemma missing_response_body_witness :
  run (doGenerate bodyless "r8_xyz" "meta/llama" no_settings
         [User [TextPart "hi"]]) =
    (Err (Error "Missing response body"),
     [initiation_request "r8_xyz" llama no_settings [User [TextPart "hi"]];
      GET "https://stream.example/p1" "text/event-stream"]) /\
  run (doStream bodyless "r8_xyz" "meta/llama" no_settings
         [User [TextPart "hi"]]) =
    (Err (Error "Missing response body"),
     [initiation_request "r8_xyz" llama no_settings [User [TextPart "hi"]];
      GET "https://stream.example/p1" "text/event-stream"]).
Proof.
  apply (missing_response_body bodyless "r8_xyz" "meta/llama" no_settings
           [User [TextPart "hi"]] llama
           {| status := 201; statusText := "Created";
              json := Some (JObject
                [("output", JNull);
                 ("urls", JObject [("stream", JString "https://stream.example/p1")])]) |}
           {| output := None; urls_stream := "https://stream.example/p1" |}).
  - reflexivity.
  - reflexivity.
  - cbn. lia.
  - reflexivity.
  - reflexivity.
Defined.

Lemma prediction_needs_output fields :
  match Json.get "output" fields with
  | Some JNull | Some (JArray _) => False
  | _ => True
  end ->
  schema.prediction (JObject fields) = None.
Proof.
  unfold schema.prediction.
  destruct (Json.get "output" fields) as [[]|]; try done;
    intros _; destruct (Json.get "urls" fields) as [[]|]; try done;
    by destruct (Json.get "stream" _) as [[]|].
Qed.

(** X6: a successful initiation whose body has no [output] key, or has
    under it anything but [null] or an array (a single string, say), does
    not validate: both entry points reject and no stream is opened. *)
Theorem output_must_be_null_or_array upstream apiKey modelId settings prompt
    ref response fields :
  parseModelId modelId = Ok ref ->
  answer_post upstream ("https://api.replicate.com" +:+ request_path ref)
    ("Bearer " +:+ apiKey) (request_body ref settings prompt) = Some response ->
  200 <= status response < 300 ->
  json response = Some (JObject fields) ->
  match Json.get "output" fields with
  | Some JNull | Some (JArray _) => False
  | _ => True
  end ->
  run (doGenerate upstream apiKey modelId settings prompt) =
    (Err InvalidResponse, [initiation_request apiKey ref settings prompt]) /\
  run (doStream upstream apiKey modelId settings prompt) =
    (Err InvalidResponse, [initiation_request apiKey ref settings prompt]).
Proof.
  intros P A S J O. apply ok_in_range in S.
  rewrite doGenerate_run, doStream_run, makeLanguageModelPrediction_run, P.
  cbn zeta. rewrite A, S. unfold createJsonResponseHandler.
  by rewrite J, (prediction_needs_output fields O).
Qed.

Lemma output_must_be_null_or_array_witness :
  run (doGenerate string_output "r8_xyz" "meta/llama" no_settings
         [User [TextPart "hi"]]) =
    (Err InvalidResponse,
     [initiation_request "r8_xyz" llama no_settings [User [TextPart "hi"]]]) /\
  run (doStream string_output "r8_xyz" "meta/llama" no_settings
         [User [TextPart "hi"]]) =
    (Err InvalidResponse,
     [initiation_request "r8_xyz" llama no_settings [User [TextPart "hi"]]]).
Proof.
  apply (output_must_be_null_or_array string_output "r8_xyz" "meta/llama"
           no_settings [User [TextPart "hi"]] llama
           {| status := 201; statusText := "Created";
              json := Some (JObject
                [("output", JString "Hello");
                 ("urls", JObject [("stream", JString "https://stream.example/p1")])]) |}
           [("output", JString "Hello");
            ("urls", JObject [("stream", JString "https://stream.example/p1")])]).
  - reflexivity.
  - reflexivity.
  - cbn. lia.
  - reflexivity.
  - exact I.
Defined.

(** X7: of a validated prediction only [urls.stream] is used: two upstreams
    that accept the initiation, announce the same stream address and serve
    the same stream give the same results, whatever [output] their
    predictions already list. *)
Theorem prediction_output_unused upstream1 upstream2 apiKey modelId settings
    prompt ref response1 response2 prediction1 prediction2 :
  parseModelId modelId = Ok ref ->
  answer_post upstream1 ("https://api.replicate.com" +:+ request_path ref)
    ("Bearer " +:+ apiKey) (request_body ref settings prompt) = Some response1 ->
  answer_post upstream2 ("https://api.replicate.com" +:+ request_path ref)
    ("Bearer " +:+ apiKey) (request_body ref settings prompt) = Some response2 ->
  200 <= status response1 < 300 ->
  200 <= status response2 < 300 ->
  createJsonResponseHandler schema.prediction response1 = Ok prediction1 ->
  createJsonResponseHandler schema.prediction response2 = Ok prediction2 ->
  urls_stream prediction1 = urls_stream prediction2 ->
  answer_get upstream1 (urls_stream prediction1) =
    answer_get upstream2 (urls_stream prediction1) ->
  run (doGenerate upstream1 apiKey modelId settings prompt) =
    run (doGenerate upstream2 apiKey modelId settings prompt) /\
  run (doStream upstream1 apiKey modelId settings prompt) =
    run (doStream upstream2 apiKey modelId settings prompt).
Proof.
  intros P A1 A2 S1 S2 V1 V2 U G.
  apply ok_in_range in S1. apply ok_in_range in S2.
  rewrite !doGenerate_run, !doStream_run, !makeLanguageModelPrediction_run, P.
  cbn zeta. by rewrite A1, A2, S1, S2, V1, V2, <- U, G.
Qed.

Lemma prediction_output_unused_witness :
  run (doGenerate (serving cut_short) "r8_xyz" "meta/llama" no_settings []) =
    run (doGenerate (with_output cut_short) "r8_xyz" "meta/llama" no_settings []) /\
  run (doStream (serving cut_short) "r8_xyz" "meta/llama" no_settings []) =
    run (doStream (with_output cut_short) "r8_xyz" "meta/llama" no_settings []).
Proof.
  apply (prediction_output_unused (serving cut_short) (with_output cut_short)
           "r8_xyz" "meta/llama" no_settings [] llama
           {| status := 201; statusText := "Created";
              json := Some (JObject
                [("output", JNull);
                 ("urls", JObject [("stream", JString "https://stream.example/p1")])]) |}
           {| status := 200; statusText := "OK";
              json := Some (JObject
                [("output", JArray [JString "early"]);
                 ("urls", JObject [("stream", JString "https://stream.example/p1")])]) |}
           {| output := None; urls_stream := "https://stream.example/p1" |}
           {| output := Some ["early"];
              urls_stream := "https://stream.example/p1" |}).
  - reflexivity.
  - reflexivity.
  - reflexivity.
  - cbn. lia.
  - cbn. lia.
  - reflexivity.
  - reflexivity.
  - reflexivity.
  - reflexivity.
Defined.

(** X8: once a reference carries a version, its owner and name reach the
    upstream nowhere: two references with the same version lead to the same
    requests and the same results. *)
Theorem versioned_reference_drops_owner_and_name upstream apiKey modelId1
    modelId2 settings prompt ref1 ref2 v :
  parseModelId modelId1 = Ok ref1 ->
  parseModelId modelId2 = Ok ref2 ->
  version ref1 = Some v ->
  version ref2 = Some v ->
  run (doGenerate upstream apiKey modelId1 settings prompt) =
    run (doGenerate upstream apiKey modelId2 settings prompt) /\
  run (doStream upstream apiKey modelId1 settings prompt) =
    run (doStream upstream apiKey modelId2 settings prompt).
Proof.
  intros P1 P2 E1 E2.
  pose proof (parsed_version_truthy _ _ _ P1 E1) as T1.
  pose proof (parsed_version_truthy _ _ _ P2 E2) as T2.
  assert (Hp : request_path ref1 = request_path ref2).
  { unfold request_path. by rewrite T1, T2. }
  assert (Hb : request_body ref1 settings prompt =
               request_body ref2 settings prompt).
  { unfold request_body. by rewrite T1, T2, E1, E2. }
  rewrite !doGenerate_run, !doStream_run, !makeLanguageModelPrediction_run,
    P1, P2.
  unfold initiation_request. cbn zeta. by rewrite Hp, Hb.
Qed.

Lemma versioned_reference_drops_owner_and_name_witness :
  run (doGenerate (serving cut_short) "r8_xyz" "meta/llama:v1" no_settings []) =
    run (doGenerate (serving cut_short) "r8_xyz" "mistral/tiny:v1" no_settings
           []) /\
  run (doStream (serving cut_short) "r8_xyz" "meta/llama:v1" no_settings []) =
    run (doStream (serving cut_short) "r8_xyz" "mistral/tiny:v1" no_settings []).
Proof.
  apply (versioned_reference_drops_owner_and_name (serving cut_short) "r8_xyz"
           "meta/llama:v1" "mistral/tiny:v1" no_settings []
           {| owner := "meta"; name := "llama"; version := Some "v1" |}
           {| owner := "mistral"; name := "tiny"; version := Some "v1" |}
           "v1"); reflexivity.
Defined.

(** X9: without a version the path tells the model: two references the
    parser accepted, both without version, that lead to the same path have
    the same owner and the same name. *)
Theorem model_path_injective modelId1 modelId2 ref1 ref2 :
  parseModelId modelId1 = Ok ref1 ->
  parseModelId modelId2 = Ok ref2 ->
  version ref1 = None ->
  version ref2 = None ->
  request_path ref1 = request_path ref2 ->
  ref1 = ref2 /\ modelId1 = modelId2.
Proof.
  intros P1 P2 E1 E2 Hp.
  apply parseModelId_Ok in P1, P2.
  assert (Hr : ref1 = ref2).
  { destruct P1 as (_ & Ho1 & _ & Hn1 & _), P2 as (_ & Ho2 & _ & Hn2 & _).
    unfold request_path in Hp. rewrite E1, E2 in Hp. cbn [truthy] in Hp.
    apply String.app_inj in Hp.
    change (owner ref1 +:+ String "/" (name ref1 +:+ "/predictions") =
            owner ref2 +:+ String "/" (name ref2 +:+ "/predictions")) in Hp.
    apply (str_cut_unique Regex.not_slash) in Hp as (Ho & _ & Hn); try done.
    assert (Hs1 : Str.all Regex.not_slash (name ref1) = true).
    { clear -Hn1. induction (name ref1) as [|c s IH]; [done |].
      cbn in *. unfold Regex.not_slash_colon in Hn1.
      apply andb_true_iff in Hn1 as [Hc Hs].
      apply andb_true_iff in Hc as [Hc _].
      unfold Regex.not_slash. rewrite Hc. by apply IH. }
    assert (Hs2 : Str.all Regex.not_slash (name ref2) = true).
    { clear -Hn2. induction (name ref2) as [|c s IH]; [done |].
      cbn in *. unfold Regex.not_slash_colon in Hn2.
      apply andb_true_iff in Hn2 as [Hc Hs].
      apply andb_true_iff in Hc as [Hc _].
      unfold Regex.not_slash. rewrite Hc. by apply IH. }
    apply (str_cut_unique Regex.not_slash) in Hn as (Hn & _); try done.
    destruct ref1, ref2; cbn in *; by subst. }
  split; [done |]. subst ref2.
  destruct P1 as (_ & _ & _ & _ & H1), P2 as (_ & _ & _ & _ & H2).
  rewrite E1 in *. congruence.
Qed.

Lemma model_path_injective_witness :
  llama = llama /\ "meta/llama" = "meta/llama".
Proof.
  apply (model_path_injective "meta/llama" "meta/llama" llama llama);
    reflexivity.
Defined.

(** ** The prompt transformers, message by message *)

Lemma message_blocks_app p1 p2 :
  message_blocks (p1 ++ p2) = message_blocks p1 ++ message_blocks p2.
Proof.
  induction p1 as [|m p1 IH]; [done |].
  destruct m; cbn; by rewrite IH.
Qed.

Lemma foldr_append_app (l1 l2 : list string) :
  foldr String.append "" (l1 ++ l2) =
  foldr String.append "" l1 +:+ foldr String.append "" l2.
Proof.
  induction l1 as [|x l1 IH]; cbn; [done |].
  by rewrite IH, str_app_assoc.
Qed.

(** X10: the default prompt transformer works message by message: the
    result for two prompts put end to end is the two results put end to end,
    and leaving out the system and tool messages changes nothing. *)
Theorem transformPrompt_by_message (p1 p2 : LanguageModelV1Prompt) :
  transformPrompt (p1 ++ p2) = transformPrompt p1 +:+ transformPrompt p2 /\
  transformPrompt (List.filter is_user_or_assistant p1) = transformPrompt p1.
Proof.
  rewrite !transformPrompt_spec. split.
  - by rewrite message_blocks_app, map_app, foldr_append_app.
  - f_equal. f_equal. induction p1 as [|m p1 IH]; [done |].
    destruct m; cbn; by rewrite ?IH.
Qed.

(** X11: on a prompt whose user and assistant messages hold one text block
    at most each, the default prompt transformer returns the texts of these
    blocks put end to end in message order, with nothing between them. *)
Theorem transformPrompt_one_text_per_message (prompt : LanguageModelV1Prompt) :
  Forall (fun m =>
            match m with
            | User content | Assistant content =>
                length (List.filter is_text content) <= 1
            | _ => True
            end) prompt ->
  transformPrompt prompt =
    foldr String.append "" (concat (message_blocks prompt)).
Proof.
  intros H. apply transformPrompt_single_blocks.
  induction H as [|m rest Hm _ IH]; [constructor |].
  destruct m; cbn; try done; constructor; try done;
    unfold text_blocks; by rewrite length_map.
Qed.

Lemma transformPrompt_one_text_per_message_witness :
  transformPrompt mixed_prompt = "ab".
Proof.
  apply (transformPrompt_one_text_per_message mixed_prompt).
  repeat constructor.
Defined.

(** X12: the default system-prompt transformer returns [undefined] exactly
    when the prompt has no system message.  Otherwise it returns the
    contents of the system messages put end to end, a string that may be
    empty; the other messages play no part. *)
Theorem transformSystemPrompt_result (prompt : LanguageModelV1Prompt) :
  (transformSystemPrompt prompt = None <->
   forallb (fun m => negb (is_system m)) prompt = true) /\
  (forallb (fun m => negb (is_system m)) prompt = false ->
   transformSystemPrompt prompt =
     Some (foldr String.append "" (system_contents prompt))) /\
  transformSystemPrompt (List.filter is_system prompt) =
    transformSystemPrompt prompt.
Proof.
  assert (Hs : system_contents prompt = [] <->
               forallb (fun m => negb (is_system m)) prompt = true).
  { induction prompt as [|m rest IH]; [done |]. destruct m; cbn; done. }
  rewrite !transformSystemPrompt_spec. split; [| split].
  - rewrite <- Hs. by destruct (system_contents prompt).
  - intros Hf. destruct (system_contents prompt); [| done].
    destruct Hs as [Hs _]. rewrite Hs in Hf; done.
  - assert (E : system_contents (List.filter is_system prompt) =
                system_contents prompt).
    { clear Hs. induction prompt as [|m rest IH]; [done |].
      destruct m; cbn; by rewrite ?IH. }
    by rewrite E.
Qed.

Lemma transformSystemPrompt_result_witness :
  transformSystemPrompt [User [TextPart "hi"]; Tool []] = None /\
  transformSystemPrompt [System ""; User [TextPart "hi"]; System ""] = Some "".
Proof.
  split.
  - apply (proj1 (transformSystemPrompt_result [User [TextPart "hi"]; Tool []])).
    reflexivity.
  - apply (proj1 (proj2 (transformSystemPrompt_result
                           [System ""; User [TextPart "hi"]; System ""]))).
    reflexivity.
Defined.

(** ** The transcoder as a stream function *)

Lemma before_done_app_no_done events more :
  has_done events = false ->
  before_done (events ++ more) = events ++ before_done more.
Proof.
  induction events as [|ev rest IH]; [done |]. cbn.
  destruct (event_is ev "done"); [done |]. cbn. intros H. by rewrite IH.
Qed.

Lemma before_done_app_done events more :
  has_done events = true ->
  before_done (events ++ more) = before_done events /\
  has_done (events ++ more) = true.
Proof.
  intros H. split.
  - induction events as [|ev rest IH]; [done |]. cbn in *.
    destruct (event_is ev "done"); [done |]. cbn in H. by rewrite IH.
  - unfold has_done in *. by rewrite existsb_app, H.
Qed.

Lemma output_data_app l1 l2 :
  output_data (l1 ++ l2) = output_data l1 ++ output_data l2.
Proof. unfold output_data. by rewrite List.filter_app, map_app. Qed.

Lemma output_data_length events : length (output_data events) <= length events.
Proof.
  unfold output_data. rewrite length_map. apply List.filter_length_le.
Qed.

Lemma before_done_length events :
  length (before_done events) + (if has_done events then 1 else 0) <=
  length events.
Proof.
  induction events as [|ev rest IH]; [cbn; lia |].
  unfold has_done in *. cbn [before_done existsb length].
  destruct (event_is ev "done"); cbn [orb length]; lia.
Qed.

(** X13: the transcoder emits one part at most for each event it reads: its
    output is never longer than its input. *)
Theorem transcoder_no_longer_than_input (source : ReadableStream ParsedEvent) :
  length (chunks (pipeThrough source transform)) <= length (chunks source).
Proof.
  rewrite pipeThrough_transform. cbn [chunks]. unfold spec_parts.
  rewrite length_app, length_map.
  pose proof (output_data_length (before_done (chunks source))).
  pose proof (before_done_length (chunks source)).
  destruct (has_done (chunks source)); cbn; lia.
Qed.

(** X14: the transcoder never takes back what it emitted: the parts produced
    for the first events of a stream are an initial segment of the parts
    produced once more events have arrived, however either stream ends. *)
Theorem transcoder_monotone (events more : list ParsedEvent) (e e' : Ending) :
  initial_segment
    (chunks (pipeThrough {| chunks := events; ending := e |} transform))
    (chunks (pipeThrough {| chunks := events ++ more; ending := e' |}
               transform)).
Proof.
  rewrite !pipeThrough_transform. cbn [chunks]. unfold spec_parts.
  destruct (has_done events) eqn:D.
  - destruct (before_done_app_done events more D) as [-> ->].
    exists []. by rewrite app_nil_r.
  - rewrite before_done_app_no_done, output_data_app, map_app by done.
    rewrite (before_done_all events D), app_nil_r, <- app_assoc.
    by eexists.
Qed.

(** ** doGenerate from the events *)

(** X15: what [doGenerate] makes of the events served.  If a [done] arrives,
    or the stream closes, it resolves to the data of the [output] events that
    precede the first [done], put end to end, and a failure of the stream
    after the [done] goes unseen; if the stream breaks before any [done] it
    rejects.  Both requests have been made in either case. *)
Theorem doGenerate_from_events upstream apiKey modelId settings prompt source :
  delivers upstream apiKey modelId settings prompt source ->
  exists log,
    length log = 2 /\
    run (doGenerate upstream apiKey modelId settings prompt) =
    (if has_done (chunks source) ||
        match ending source with Closed => true | Errored => false end
     then
       Ok {| text := foldr String.append ""
                       (output_data (before_done (chunks source)));
             generate_finishReason := stop;
             generate_usage := {| promptTokens := 0; completionTokens := 0 |};
             generate_rawPrompt := prompt;
             generate_rawSettings := settings |}
     else Err StreamFailure,
     log).
Proof.
  intros (ref & response & prediction & P & A & O & V & G).
  eexists. split; [| rewrite doGenerate_run, makeLanguageModelPrediction_run, P;
                     cbn zeta; rewrite A, O, V, G].
  2:{ rewrite for_await_transcoded, pipeThrough_transform. cbn [chunks ending].
      unfold spec_parts.
      destruct (has_done (chunks source)); cbn [orb].
      - assert (L : forall l, leading_text_deltas
                                (map text_delta l ++ [finish_part]) = l).
        { induction l as [|x l IH]; cbn; [done | by rewrite IH]. }
        by rewrite L, str_join_empty_sep.
      - rewrite app_nil_r, leading_text_deltas_map.
        destruct (ending source); [| done].
        by rewrite str_join_empty_sep. }
  reflexivity.
Qed.

Lemma doGenerate_from_events_witness :
  exists log,
    length log = 2 /\
    run (doGenerate (serving broken_after_done) "r8_xyz" "meta/llama"
           no_settings [User [TextPart "hi"]]) =
    (Ok {| text := "Hello world";
           generate_finishReason := stop;
           generate_usage := {| promptTokens := 0; completionTokens := 0 |};
           generate_rawPrompt := [User [TextPart "hi"]];
           generate_rawSettings := no_settings |}, log).
Proof.
  apply (doGenerate_from_events (serving broken_after_done) "r8_xyz"
           "meta/llama" no_settings [User [TextPart "hi"]] broken_after_done).
  exists llama,
    {| status := 201; statusText := "Created";
       json := Some (JObject
         [("output", JNull);
          ("urls", JObject [("stream", JString "https://stream.example/p1")])]) |},
    {| output := None; urls_stream := "https://stream.example/p1" |}.
  repeat split; reflexivity.
Defined.

(** X16: the loop of [doGenerate] ends at the first part that is not a text
    delta, be it a finish, a tool call or an error part: it returns what it
    gathered so far, and neither the parts that follow nor the way the
    stream ends make a difference. *)
Theorem for_await_stops_at_other_part texts part rest stream_ending output :
  is_text_delta part = false ->
  for_await (map text_delta texts ++ part :: rest) stream_ending output =
    Ok (output ++ texts).
Proof.
  intros Hp. rewrite for_await_spec.
  assert (F : forallb is_text_delta (map text_delta texts ++ part :: rest) =
              false).
  { rewrite forallb_app. cbn. rewrite Hp. by rewrite andb_false_r. }
  assert (L : leading_text_deltas (map text_delta texts ++ part :: rest) =
              texts).
  { induction texts as [|x l IH]; cbn; [by destruct part | by rewrite IH]. }
  by rewrite F, L.
Qed.

Lemma for_await_stops_at_other_part_witness :
  for_await (map text_delta ["Hel"; "lo"] ++
             error_part (JString "overloaded") :: [text_delta "!"])
    Errored [] = Ok ([] ++ ["Hel"; "lo"]).
Proof.
  apply (for_await_stops_at_other_part ["Hel"; "lo"]
           (error_part (JString "overloaded")) [text_delta "!"] Errored []).
  reflexivity.
Defined.

(** * parseModelId over UTF-16 code units *)

Lemma list_cut_unique (p : N -> bool) (a a' : list N) c c' (x x' : list N) :
  forallb p a = true -> forallb p a' = true -> p c = false -> p c' = false ->
  a ++ c :: x = a' ++ c' :: x' ->
  a = a' /\ c = c' /\ x = x'.
Proof.
  revert a'. induction a as [|h a IH]; intros [|h' a'] Ha Ha' Hc Hc' E;
    cbn in *.
  - by injection E as -> ->.
  - injection E as -> _. apply andb_true_iff in Ha' as [Hh _]. congruence.
  - injection E as -> _. apply andb_true_iff in Ha as [Hh _]. congruence.
  - injection E as -> E.
    apply andb_true_iff in Ha as [_ Ha]. apply andb_true_iff in Ha' as [_ Ha'].
    by destruct (IH a' Ha Ha' Hc Hc' E) as (-> & -> & ->).
Qed.

Lemma list_cut_none (p : N -> bool) (a a' : list N) c (x : list N) :
  forallb p a = true -> p c = false -> a = a' ++ c :: x -> False.
Proof.
  intros Ha Hc ->. rewrite forallb_app in Ha. cbn in Ha.
  rewrite Hc in Ha. cbn in Ha. by rewrite andb_false_r in Ha.
Qed.

Lemma utf16_plus_sound {A} cls (s : list N)
    (k : list N -> list N -> option A) r :
  Utf16.plus cls s k = Some r ->
  exists m rest, s = m ++ rest /\ m <> [] /\ forallb cls m = true /\
                 k m rest = Some r.
Proof.
  revert k. induction s as [|c s IH]; intros k H; cbn in H; [discriminate |].
  destruct (cls c) eqn:Hc; [| discriminate].
  destruct (Utf16.plus cls s _) as [r'|] eqn:E.
  - injection H as ->. apply IH in E as (m & rest & -> & _ & Hm & Hk).
    exists (c :: m), rest. cbn. by rewrite Hc, Hm.
  - exists [c], s. cbn. by rewrite Hc.
Qed.

Lemma utf16_plus_complete {A} cls (m rest : list N)
    (k : list N -> list N -> option A) :
  m <> [] -> forallb cls m = true -> is_Some (k m rest) ->
  is_Some (Utf16.plus cls (m ++ rest) k).
Proof.
  revert k. induction m as [|c m IH]; intros k Hne Hall Hk; [done |].
  cbn in Hall. apply andb_true_iff in Hall as [Hc Hall]. cbn. rewrite Hc.
  destruct m as [|c' m].
  - cbn. destruct (Utf16.plus cls rest _); eauto.
  - specialize (IH (fun m0 rest0 => k (c :: m0) rest0)).
    destruct IH as [r Hr]; [done | done | done |].
    rewrite Hr. eauto.
Qed.

Lemma utf16_char_sound {A} c (s : list N) (k : list N -> option A) r :
  Utf16.char c s k = Some r -> exists s', s = c :: s' /\ k s' = Some r.
Proof.
  destruct s as [|c' s']; cbn; [discriminate |].
  destruct (N.eqb_spec c' c) as [-> |]; [eauto | discriminate].
Qed.

Lemma utf16_char_cons {A} c (s : list N) (k : list N -> option A) :
  Utf16.char c (c :: s) k = k s.
Proof. cbn. by rewrite N.eqb_refl. Qed.

Lemma utf16_at_end_sound {A} (s : list N) (r r' : A) :
  Utf16.at_end s r = Some r' -> s = [] /\ r' = r.
Proof. destruct s; cbn; [| discriminate]. by injection 1 as ->. Qed.

Lemma utf16_match_sound ref r :
  Utf16.match_model_id ref = Some r -> Utf16.reference_grammar ref r.
Proof.
  unfold Utf16.match_model_id. intros H.
  apply utf16_plus_sound in H as (o & r1 & -> & Ho & Hao & H).
  apply utf16_char_sound in H as (r2 & -> & H).
  apply utf16_plus_sound in H as (n & r3 & -> & Hn & Han & H).
  unfold Regex.optional in H.
  destruct (Utf16.char Utf16.colon r3 _) as [g|] eqn:G.
  - injection H as ->.
    apply utf16_char_sound in G as (r4 & -> & G).
    apply utf16_plus_sound in G as (v & r5 & -> & Hv & Hav & G).
    apply utf16_at_end_sound in G as [-> ->].
    unfold Utf16.reference_grammar; cbn. by rewrite app_nil_r.
  - apply utf16_at_end_sound in H as [-> ->].
    unfold Utf16.reference_grammar; cbn. by rewrite app_nil_r.
Qed.

Lemma utf16_grammar_unique ref r r' :
  Utf16.reference_grammar ref r -> Utf16.reference_grammar ref r' -> r = r'.
Proof.
  destruct r as [o n v], r' as [o' n' v'].
  unfold Utf16.reference_grammar; cbn.
  intros (_ & Ho & _ & Hn & Hv) (_ & Ho' & _ & Hn' & Hv').
  assert (Hcut : o = o' /\
                 n ++ match v with Some x => Utf16.colon :: x | None => [] end =
                 n' ++ match v' with Some x => Utf16.colon :: x | None => [] end).
  { assert (E : o ++ Utf16.slash ::
                  (n ++ match v with
                        | Some x => Utf16.colon :: x | None => [] end)
              = o' ++ Utf16.slash ::
                  (n' ++ match v' with
                         | Some x => Utf16.colon :: x | None => [] end)).
    { destruct v, v'; rewrite ?app_nil_r;
        repeat match goal with H : _ /\ _ |- _ => destruct H end;
        congruence. }
    by apply (list_cut_unique Utf16.not_slash) in E as (-> & _ & ->). }
  destruct Hcut as [-> E]. clear Hv Hv' Ho Ho'.
  destruct v as [x|], v' as [x'|].
  - by apply (list_cut_unique Utf16.not_slash_colon) in E as (-> & _ & ->).
  - rewrite app_nil_r in E. symmetry in E.
    by apply (list_cut_none Utf16.not_slash_colon) in E.
  - rewrite app_nil_r in E.
    by apply (list_cut_none Utf16.not_slash_colon) in E.
  - rewrite !app_nil_r in E. by subst.
Qed.

Lemma utf16_match_complete ref r :
  Utf16.reference_grammar ref r -> Utf16.match_model_id ref = Some r.
Proof.
  intros G.
  assert (S : is_Some (Utf16.match_model_id ref)).
  { destruct r as [o n v]. unfold Utf16.reference_grammar in G; cbn in G.
    destruct G as (Ho & Hao & Hn & Han & Hv). unfold Utf16.match_model_id.
    destruct v as [v|].
    - destruct Hv as (Hv & Hav & ->).
      apply utf16_plus_complete; [done | done |]. rewrite utf16_char_cons.
      apply utf16_plus_complete; [done | done |]. rewrite utf16_char_cons.
      pose proof (utf16_plus_complete Utf16.dot v []
        (fun version r5 => Utf16.at_end r5
           {| Utf16.owner := o; Utf16.name := n;
              Utf16.version := Some version |}) Hv Hav) as P.
      rewrite app_nil_r in P. destruct P as [x ->]; [by eexists |].
      by eexists.
    - subst ref.
      apply utf16_plus_complete; [done | done |]. rewrite utf16_char_cons.
      pose proof (utf16_plus_complete Utf16.not_slash_colon n []
        (fun name r3 => Regex.optional
           (Utf16.char Utf16.colon r3 (fun r4 =>
              Utf16.plus Utf16.dot r4 (fun version r5 =>
                Utf16.at_end r5
                  {| Utf16.owner := o; Utf16.name := name;
                     Utf16.version := Some version |})))
           (Utf16.at_end r3
              {| Utf16.owner := o; Utf16.name := name;
                 Utf16.version := None |}))
        Hn Han) as P.
      rewrite app_nil_r in P. apply P. cbn. by eexists. }
  destruct S as [r' E]. rewrite E. f_equal.
  apply utf16_match_sound in E. by apply (utf16_grammar_unique ref).
Qed.

Lemma utf16_parseModelId_Returns ref r :
  Utf16.parseModelId ref = Utf16.Returns r <-> Utf16.reference_grammar ref r.
Proof.
  unfold Utf16.parseModelId. split.
  - destruct (Utf16.match_model_id ref) eqn:E; [| discriminate].
    injection 1 as ->. by apply utf16_match_sound.
  - intros G. by rewrite (utf16_match_complete ref r G).
Qed.

Lemma utf16_parseModelId_no_grammar ref :
  (forall r, ~ Utf16.reference_grammar ref r) ->
  Utf16.parseModelId ref = Utf16.Throws (Utf16.invalid_reference_message ref).
Proof.
  intros Hno. unfold Utf16.parseModelId.
  destruct (Utf16.match_model_id ref) as [r|] eqn:E; [| done].
  apply utf16_match_sound in E. by destruct (Hno r).
Qed.

(** C3 (amended), over every JavaScript string: a string that decomposes as
    [owner/name] or [owner/name:version] -- owner non-empty without [/],
    name non-empty without [/] and [:], version non-empty without line
    terminator (LF, CR, U+2028, U+2029) -- is parsed to exactly that
    owner, name and version; a string with no such decomposition makes the
    parser throw the error whose message quotes the string and the expected
    format. *)
Theorem parseModelId_grammar_utf16 (ref : list N) :
  (forall r, Utf16.reference_grammar ref r ->
             Utf16.parseModelId ref = Utf16.Returns r) /\
  ((forall r, ~ Utf16.reference_grammar ref r) ->
   Utf16.parseModelId ref =
     Utf16.Throws
       (Utf16.of_string "Invalid reference to model version: " ++ ref ++
        Utf16.of_string
          ". Expected format: owner/name or owner/name:version")).
Proof.
  split.
  - intros r G. by apply utf16_parseModelId_Returns.
  - apply utf16_parseModelId_no_grammar.
Qed.

Lemma parseModelId_grammar_utf16_witness :
  Utf16.parseModelId (Utf16.of_string "meta/llama:v1") =
    Utf16.Returns
      {| Utf16.owner := Utf16.of_string "meta";
         Utf16.name := Utf16.of_string "llama";
         Utf16.version := Some (Utf16.of_string "v1") |} /\
  Utf16.parseModelId line_separator_in_version =
    Utf16.Throws
      (Utf16.of_string "Invalid reference to model version: " ++
       line_separator_in_version ++
       Utf16.of_string
         ". Expected format: owner/name or owner/name:version").
Proof.
  split.
  - apply (proj1 (parseModelId_grammar_utf16 _)).
    unfold Utf16.reference_grammar; cbn. by repeat split.
  - apply (proj2 (parseModelId_grammar_utf16 line_separator_in_version)).
    intros r G. apply utf16_parseModelId_Returns in G.
    vm_compute in G. discriminate G.
Defined.

(** ** The two parsers agree on the strings of code units below 256 *)

Lemma N_of_ascii_eqb (a b : ascii) :
  N.eqb (N_of_ascii a) (N_of_ascii b) = Ascii.eqb a b.
Proof.
  destruct (Ascii.eqb_spec a b) as [-> | Hne].
  - apply N.eqb_refl.
  - apply N.eqb_neq. intros E. apply Hne.
    by rewrite <- (ascii_N_embedding a), <- (ascii_N_embedding b), E.
Qed.

Lemma utf16_not_slash c : Utf16.not_slash (N_of_ascii c) = Regex.not_slash c.
Proof.
  unfold Utf16.not_slash, Regex.not_slash.
  change Utf16.slash with (N_of_ascii "/"). by rewrite N_of_ascii_eqb.
Qed.

Lemma utf16_not_slash_colon c :
  Utf16.not_slash_colon (N_of_ascii c) = Regex.not_slash_colon c.
Proof.
  unfold Utf16.not_slash_colon, Regex.not_slash_colon.
  change Utf16.slash with (N_of_ascii "/").
  change Utf16.colon with (N_of_ascii ":"). by rewrite !N_of_ascii_eqb.
Qed.

Lemma utf16_dot c : Utf16.dot (N_of_ascii c) = Regex.dot c.
Proof.
  unfold Utf16.dot, Utf16.is_line_terminator, Regex.dot,
    Regex.is_line_terminator.
  change 10%N with (N_of_ascii "010"). change 13%N with (N_of_ascii "013").
  rewrite !N_of_ascii_eqb.
  assert (H : forall n, (255 < n)%N -> N.eqb (N_of_ascii c) n = false).
  { intros n Hn. apply N.eqb_neq. pose proof (N_ascii_bounded c). lia. }
  rewrite !H by lia. by rewrite !orb_false_r.
Qed.

Lemma utf16_of_string_app (a b : string) :
  Utf16.of_string (a +:+ b) = Utf16.of_string a ++ Utf16.of_string b.
Proof.
  induction a as [|c a IH]; [done |].
  change (N_of_ascii c :: Utf16.of_string (a +:+ b) =
          N_of_ascii c :: Utf16.of_string a ++ Utf16.of_string b).
  by rewrite IH.
Qed.

Lemma utf16_plus_simulates {A B} (f : A -> B) cls8 cls16 (s : string)
    (k8 : string -> string -> option A)
    (k16 : list N -> list N -> option B) :
  (forall c, cls16 (N_of_ascii c) = cls8 c) ->
  (forall m rest,
     k16 (Utf16.of_string m) (Utf16.of_string rest) = option_map f (k8 m rest)) ->
  Utf16.plus cls16 (Utf16.of_string s) k16 =
    option_map f (Regex.plus cls8 s k8).
Proof.
  intros Hcls. revert k8 k16. induction s as [|c s IH]; intros k8 k16 Hk;
    [done |].
  change (Utf16.of_string (String c s))
    with (N_of_ascii c :: Utf16.of_string s).
  cbn [Utf16.plus Regex.plus]. rewrite Hcls.
  destruct (cls8 c); [| done].
  rewrite (IH (fun m rest => k8 (String c m) rest)
              (fun m rest => k16 (N_of_ascii c :: m) rest)).
  - destruct (Regex.plus cls8 s _); [done |]. apply (Hk (String c "") s).
  - intros m rest. apply (Hk (String c m) rest).
Qed.

Lemma utf16_char_simulates {A B} (f : A -> B) c (s : string)
    (k8 : string -> option A) (k16 : list N -> option B) :
  (forall rest, k16 (Utf16.of_string rest) = option_map f (k8 rest)) ->
  Utf16.char (N_of_ascii c) (Utf16.of_string s) k16 =
    option_map f (Regex.char c s k8).
Proof.
  intros Hk. destruct s as [|c' s]; [done |].
  change (Utf16.of_string (String c' s))
    with (N_of_ascii c' :: Utf16.of_string s).
  cbn [Utf16.char Regex.char]. rewrite N_of_ascii_eqb.
  destruct (Ascii.eqb c' c); [apply Hk | done].
Qed.

Lemma utf16_match_of_string (s : string) :
  Utf16.match_model_id (Utf16.of_string s) =
    option_map utf16_ref (match_model_id s).
Proof.
  unfold Utf16.match_model_id, match_model_id.
  apply utf16_plus_simulates; [apply utf16_not_slash |]. intros o r1.
  change Utf16.slash with (N_of_ascii "/").
  apply utf16_char_simulates. intros r2.
  apply utf16_plus_simulates; [apply utf16_not_slash_colon |]. intros n r3.
  change Utf16.colon with (N_of_ascii ":").
  rewrite (utf16_char_simulates utf16_ref ":" r3
             (fun r4 => Regex.plus Regex.dot r4 (fun version r5 =>
                Regex.at_end r5
                  {| owner := o; name := n; version := Some version |}))).
  - destruct (Regex.char ":" r3 _); [done |]. cbn [Regex.optional option_map].
    by destruct r3.
  - intros r4. apply utf16_plus_simulates; [apply utf16_dot |].
    intros v r5. by destruct r5.
Qed.

(** On a string of the development above, the parser over code units does
    what [parseModelId] does. *)
Lemma utf16_parseModelId_of_string (s : string) :
  Utf16.parseModelId (Utf16.of_string s) =
  match parseModelId s with
  | Ok r => Utf16.Returns (utf16_ref r)
  | Err _ => Utf16.Throws (Utf16.of_string (invalid_reference_message s))
  end.
Proof.
  unfold Utf16.parseModelId, parseModelId. rewrite utf16_match_of_string.
  destruct (match_model_id s); [done |]. cbn [option_map]. f_equal.
  unfold Utf16.invalid_reference_message, invalid_reference_message.
  by rewrite !utf16_of_string_app.
Qed.
